(** * Tcl string objects (generic/tclStringObj.c): a shallow embedding

    Bytes and code units are [Z]; byte buffers are [list Z].  A read past
    the end of a buffer yields 0, the NUL terminator Tcl keeps after every
    string representation.  Platform: LP64 (int 32 bits, long 64 bits,
    [TCL_WIDE_INT_IS_LONG]), [TCL_UTF_MAX] = 3, [Tcl_UniChar] 16 bits. *)

From Stdlib Require Import ZArith List Lia Bool Sorting.Sorted.
Import ListNotations.
Open Scope Z_scope.

(** ** Machine integers *)

Definition INT_MAX : Z := 2147483647.

(** Two's complement reduction of an integer to [w] bits. *)
Definition wrap (w : Z) (x : Z) : Z :=
  let m := Z.modulo x (2 ^ w) in
  if m >=? 2 ^ (w - 1) then m - 2 ^ w else m.

Definition wrap32 := wrap 32.
Definition wrap16 := wrap 16.
Definition wrap64 := wrap 64.

(** ** Outcome of a call: a normal return or a [Tcl_Panic]. *)

Inductive Res (A : Type) : Type :=
| Ok : A -> Res A
| Panic : Res A.
Arguments Ok {A} _.
Arguments Panic {A}.

Definition bind {A B} (r : Res A) (k : A -> Res B) : Res B :=
  match r with Ok a => k a | Panic => Panic end.
Notation "x <- r ;; k" := (bind r (fun x => k))
  (at level 61, r at next level, right associativity).

(** ** The UTF-8 helpers of generic/tclUtf.c *)

Definition byte_at (s : list Z) (i : nat) : Z := nth i s 0.

Definition is_trail (b : Z) : bool := Z.land b 192 =? 128.

(** Modelled from the spec: [Tcl_UtfToUniChar] (generic/tclUtf.c, not in
    this tree), the decoder behind every character count: a byte below
    0xC0 is one character; a lead byte followed by the right number of
    trail bytes is one multi-byte character; any other lead byte stands for
    itself.  Returns the number of bytes consumed and the character. *)
Definition Tcl_UtfToUniChar (src : list Z) : Z * Z :=
  let b0 := byte_at src 0 in
  let b1 := byte_at src 1 in
  let b2 := byte_at src 2 in
  if b0 <? 192 then (1, b0)
  else if b0 <? 224 then
    if is_trail b1
    then (2, Z.lor (Z.shiftl (Z.land b0 31) 6) (Z.land b1 63))
    else (1, b0)
  else if b0 <? 240 then
    if is_trail b1 && is_trail b2
    then (3, Z.lor (Z.lor (Z.shiftl (Z.land b0 15) 12)
                          (Z.shiftl (Z.land b1 63) 6)) (Z.land b2 63))
    else (1, b0)
  else (1, b0).

(** The [TclUtfToUniChar] macro: the single-byte case inline. *)
Definition TclUtfToUniChar (src : list Z) : Z * Z :=
  if byte_at src 0 <? 192 then (1, byte_at src 0) else Tcl_UtfToUniChar src.

Fixpoint NumUtfChars_loop (fuel : nat) (src : list Z) (length : Z) : Z :=
  match fuel with
  | O => 0
  | S f =>
      if length >? 0 then
        if byte_at src 0 <? 192
        then 1 + NumUtfChars_loop f (skipn 1 src) (length - 1)
        else let n := fst (Tcl_UtfToUniChar src) in
             1 + NumUtfChars_loop f (skipn (Z.to_nat n) src) (length - n)
      else 0
  end.

(** Modelled from the spec: [Tcl_NumUtfChars(src, length)] for
    [length >= 0], the reference character count: decode characters one
    after the other until [length] bytes are used up.  Each round consumes
    at least one byte, so [length] rounds suffice. *)
Definition Tcl_NumUtfChars (src : list Z) (length : Z) : Z :=
  NumUtfChars_loop (Z.to_nat length) src length.

(** Decoding [n] characters into code units, as the loop at the end of
    [ExtendUnicodeRepWithString] does. *)
Fixpoint utf_decode (n : nat) (src : list Z) : list Z :=
  match n with
  | O => []
  | S k => let '(w, ch) := TclUtfToUniChar src in
           ch :: utf_decode k (skipn (Z.to_nat w) src)
  end.

(** Modelled from the spec: [Tcl_UniCharToUtf] with [TCL_UTF_MAX] = 3;
    [ch] arrives as an [int]. *)
Definition Tcl_UniCharToUtf (ch : Z) : list Z :=
  let enc2 c := [Z.lor 192 (Z.shiftr c 6); Z.lor 128 (Z.land c 63)] in
  let enc3 c := [Z.lor 224 (Z.shiftr c 12);
                 Z.lor 128 (Z.land (Z.shiftr c 6) 63);
                 Z.lor 128 (Z.land c 63)] in
  if (0 <? ch) && (ch <? 128) then [ch]
  else if (0 <=? ch) && (ch <=? 2047) then enc2 ch
  else if (0 <=? ch) && (ch <=? 65535) then enc3 ch
  else enc3 65533.

Definition utf_encode (u : list Z) : list Z := flat_map Tcl_UniCharToUtf u.

(** ** The object: [Tcl_Obj] with a [String] internal rep *)

Record StringObj := mkObj {
  shared : bool;              (* Tcl_IsShared(objPtr) *)
  bytes : option (list Z);    (* objPtr->bytes[0 .. objPtr->length); None = NULL *)
  allocated : Z;              (* stringPtr->allocated *)
  numChars : Z;               (* stringPtr->numChars, -1 = unknown *)
  hasUnicode : bool;          (* stringPtr->hasUnicode *)
  uallocated : Z;             (* stringPtr->uallocated, in bytes *)
  unicode : list Z            (* stringPtr->unicode[0 .. numChars) *)
}.

Definition obj_bytes (o : StringObj) : list Z :=
  match bytes o with Some b => b | None => [] end.

Definition objLength (o : StringObj) : Z := Z.of_nat (length (obj_bytes o)).

Definition set_bytes (o : StringObj) (b : option (list Z)) : StringObj :=
  mkObj (shared o) b (allocated o) (numChars o) (hasUnicode o)
        (uallocated o) (unicode o).
Definition set_allocated (o : StringObj) (a : Z) : StringObj :=
  mkObj (shared o) (bytes o) a (numChars o) (hasUnicode o)
        (uallocated o) (unicode o).
Definition set_chars (o : StringObj) (n : Z) (h : bool) : StringObj :=
  mkObj (shared o) (bytes o) (allocated o) n h (uallocated o) (unicode o).
Definition set_unicode (o : StringObj) (ua : Z) (u : list Z) : StringObj :=
  mkObj (shared o) (bytes o) (allocated o) (numChars o) (hasUnicode o) ua u.

(** [size_t] arithmetic: an [int] converted to [size_t] wraps modulo
    2^64. *)
Definition size_t_of (n : Z) : Z := Z.modulo n (2 ^ 64).

(** [STRING_UALLOC(numChars)]: bytes for [numChars] 16-bit code units. *)
Definition STRING_UALLOC (n : Z) : Z := size_t_of (size_t_of n * 2).

(** [STRING_SIZE(numBytes)] on LP64: [sizeof(String)] is 24. *)
Definition STRING_SIZE (n : Z) : Z := 24 - 2 + n.

Definition TCL_GROWTH_MIN_ALLOC : Z := 1024.

(** [ExtendUnicodeRepWithString(objPtr, src, numBytes, numAppendChars)]
    on its path without a panic: the panic on [needed < 0] and the
    [stringRealloc] of the unicode buffer (which panics when the
    allocation fails) are left out; the new capacity is recorded.  What
    is proved over values built through it holds for calls that return. *)
Definition ExtendUnicodeRepWithString (o : StringObj) (src : list Z)
    (numBytes numAppendChars : Z) : StringObj :=
  let numOrigChars := if hasUnicode o then numChars o else 0 in
  let numAppend := if numAppendChars =? -1
                   then Tcl_NumUtfChars src numBytes else numAppendChars in
  let needed := numOrigChars + numAppend in
  let ua := STRING_UALLOC needed in
  let ua' := if ua >? uallocated o
             then (if uallocated o >? 0
                   then (if ua <=? STRING_UALLOC INT_MAX / 2 then ua * 2
                         else STRING_UALLOC INT_MAX)
                   else ua)
             else uallocated o in
  let o1 := set_unicode o ua'
              (firstn (Z.to_nat numOrigChars) (unicode o)
               ++ utf_decode (Z.to_nat numAppend) src) in
  set_chars o1 needed (needed >? 0).

(** [FillUnicodeRep]. *)
Definition FillUnicodeRep (o : StringObj) : StringObj :=
  ExtendUnicodeRepWithString o (obj_bytes o) (objLength o) (numChars o).

(** The leading run of bytes below 0xC0, as the loop
    [while (i && *str < 0xC0)] of [Tcl_GetCharLength] walks it. *)
Fixpoint ascii_prefix (s : list Z) : nat :=
  match s with
  | [] => O
  | b :: t => if b <? 192 then S (ascii_prefix t) else O
  end.

(** [Tcl_GetCharLength] for an object of string type (the pure byte-array
    fast path is not modelled).  Returns the count and the updated object. *)
Definition Tcl_GetCharLength (o : StringObj) : Z * StringObj :=
  if numChars o =? -1 then
    let len := objLength o in
    let str := obj_bytes o in
    let i := len - Z.of_nat (ascii_prefix str) in
    let n0 := len - i in
    let n := if i =? 0 then n0
             else n0 + Tcl_NumUtfChars (skipn (Z.to_nat (len - i)) str) i in
    let o1 := set_chars o n (hasUnicode o) in
    if n =? len then (n, set_chars o1 n false)
    else let o2 := FillUnicodeRep o1 in (numChars o2, o2)
  else (numChars o, o).

(** Every character the decoder recognises is a single byte. *)
Fixpoint single_unit_loop (fuel : nat) (src : list Z) (length : Z) : bool :=
  match fuel with
  | O => true
  | S f =>
      if length >? 0 then
        let n := fst (Tcl_UtfToUniChar src) in
        (n =? 1) && single_unit_loop f (skipn (Z.to_nat n) src) (length - n)
      else true
  end.

Definition all_single_unit (b : list Z) : bool :=
  single_unit_loop (length b) b (Z.of_nat (length b)).

(** An object as [SetStringFromAny] leaves a fresh string [b]: character
    count unknown, no unicode rep. *)
Definition fresh_string (b : list Z) : StringObj :=
  mkObj false (Some b) (Z.of_nat (length b)) (-1) false 0 [].

(** Character starts of a buffer, as the decoder segments it from its
    first byte. *)
Fixpoint char_starts (fuel : nat) (src : list Z) (pos : Z) : list Z :=
  match fuel, src with
  | O, _ | _, [] => []
  | S f, _ :: _ =>
      let w := fst (Tcl_UtfToUniChar src) in
      pos :: char_starts f (skipn (Z.to_nat w) src) (pos + w)
  end.

Definition char_boundaries (src : list Z) : list Z :=
  char_starts (length src) src 0.

(** Modelled from the spec: [Tcl_UtfPrev(p, start)] (generic/tclUtf.c, not
    in this tree) steps back from offset [p] to the start of the character
    that holds byte [p - 1], never before [start]. *)
Definition Tcl_UtfPrev (start : list Z) (p : Z) : Z :=
  fold_left (fun acc q => if q <? p then q else acc) (char_boundaries start) 0.

(** [strlen]. *)
Fixpoint strlen (s : list Z) : Z :=
  match s with [] => 0 | b :: t => if b =? 0 then 0 else 1 + strlen t end.

(** Bytes past the old end of a grown buffer are undefined in C; the model
    fills them with 0. *)
Definition resize {A} (fill : A) (l : list A) (n : Z) : list A :=
  firstn (Z.to_nat n) (l ++ repeat fill (Z.to_nat n)).

(** [objPtr->bytes != NULL]. *)
Definition has_bytes (o : StringObj) : bool :=
  match bytes o with Some _ => true | None => false end.

(** Invalidating the string rep ([TclInvalidateStringRep]). *)
Definition invalidate_string_rep (o : StringObj) : StringObj := set_bytes o None.

Section Allocator.

(** The allocator, an external capability: [alloc_ok n] says whether a
    request for [n] bytes succeeds.  [ckalloc]/[ckrealloc] panic when it
    does not; [attemptckalloc]/[attemptckrealloc] return NULL. *)
Variable alloc_ok : Z -> bool.

Definition ckrealloc (n : Z) : Res unit := if alloc_ok n then Ok tt else Panic.

Definition stringRealloc (numBytes : Z) : Res unit :=
  if numBytes >? INT_MAX - STRING_SIZE 0 then Panic
  else ckrealloc (STRING_SIZE (if numBytes =? 0 then 2 else numBytes)).

Definition stringAttemptRealloc (numBytes : Z) : bool :=
  if numBytes >? INT_MAX - STRING_SIZE 0 then false
  else alloc_ok (STRING_SIZE (if numBytes =? 0 then 2 else numBytes)).

(** The part of [Tcl_SetObjLength] after the byte buffer is (re)allocated. *)
Definition set_length_tail (o : StringObj) (length : Z)
    (ualloc : Z -> Res unit) : Res StringObj :=
  match bytes o with
  | Some bs =>
      Ok (mkObj (shared o) (Some (resize 0 bs length)) (allocated o) (-1) false
                (uallocated o) (unicode o))
  | None =>
      let ua := STRING_UALLOC length in
      u <- (if ua >? uallocated o then
              _ <- ualloc ua ;; Ok ua
            else Ok (uallocated o)) ;;
      Ok (mkObj (shared o) None 0 length (length >? 0) u
                (resize 0 (unicode o) length))
  end.

(** [Tcl_SetObjLength]. *)
Definition Tcl_SetObjLength (o : StringObj) (length : Z) : Res StringObj :=
  if length <? 0 then Panic
  else if shared o then Panic
  else
    o1 <- (if (length >? allocated o)
              && (has_bytes o || negb (hasUnicode o)) then
             _ <- ckrealloc (length + 1) ;;
             Ok (mkObj (shared o) (Some (obj_bytes o)) length (numChars o) false
                       (uallocated o) (unicode o))
           else Ok o) ;;
    set_length_tail o1 length stringRealloc.

(** [Tcl_AttemptSetObjLength]: [(true, o')] for 1, [(false, o)] for 0. *)
Definition Tcl_AttemptSetObjLength (o : StringObj) (length : Z)
    : Res (bool * StringObj) :=
  if length <? 0 then Ok (false, o)
  else if shared o then Panic
  else
    let grow := (length >? allocated o)
                && (has_bytes o || negb (hasUnicode o)) in
    if grow && negb (alloc_ok (length + 1)) then Ok (false, o)
    else
      let o1 := if grow
                then mkObj (shared o) (Some (obj_bytes o)) length (numChars o) false
                           (uallocated o) (unicode o)
                else o in
      match bytes o1 with
      | None =>
          if (STRING_UALLOC length >? uallocated o1)
             && negb (stringAttemptRealloc (STRING_UALLOC length))
          then Ok (false, o)
          else r <- set_length_tail o1 length (fun _ => Ok tt) ;; Ok (true, r)
      | Some _ => r <- set_length_tail o1 length (fun _ => Ok tt) ;; Ok (true, r)
      end.

(** [AppendUtfToUtfRep(objPtr, src, numBytes)]; [2 * newLength] is
    evaluated in [int]. *)
Definition AppendUtfToUtfRep (o : StringObj) (src : list Z) (numBytes : Z)
    : Res StringObj :=
  if numBytes =? 0 then Ok o else
  let oldLength := objLength o in
  if numBytes >? INT_MAX - oldLength then Panic else
  let newLength := numBytes + oldLength in
  o1 <- (if newLength >? allocated o then
           r <- Tcl_AttemptSetObjLength o (wrap32 (2 * newLength)) ;;
           if fst r then Ok (snd r)
           else
             let limit := INT_MAX - newLength in
             let extra := numBytes + TCL_GROWTH_MIN_ALLOC in
             let growth := if extra >? limit then limit else extra in
             Tcl_SetObjLength (snd r) (newLength + growth)
         else Ok o) ;;
  Ok (mkObj (shared o1)
            (Some (firstn (Z.to_nat oldLength) (obj_bytes o1)
                   ++ firstn (Z.to_nat numBytes) src))
            (allocated o1) (-1) false (uallocated o1) (unicode o1)).

(** [AppendUnicodeToUnicodeRep(objPtr, src, appendNumChars)] for
    [appendNumChars >= 0].  The local [size_t numChars] receives the [int]
    sum [stringPtr->numChars + appendNumChars]; [2 * numChars] and
    [numChars + appendNumChars] are then [size_t] expressions, and the
    final store back into the [int] field [stringPtr->numChars] narrows. *)
Definition AppendUnicodeToUnicodeRep (o : StringObj) (src : list Z)
    (appendNumChars : Z) : Res StringObj :=
  if appendNumChars =? 0 then Ok o else
  let nc := size_t_of (wrap32 (numChars o + appendNumChars)) in
  ua <- (if STRING_UALLOC nc >=? uallocated o then
           let ua1 := STRING_UALLOC (size_t_of (2 * nc)) in
           if stringAttemptRealloc ua1 then Ok ua1
           else
             let ua2 := size_t_of (STRING_UALLOC (size_t_of (nc + appendNumChars))
                                   + TCL_GROWTH_MIN_ALLOC) in
             _ <- stringRealloc ua2 ;; Ok ua2
         else Ok (uallocated o)) ;;
  Ok (invalidate_string_rep
        (mkObj (shared o) (bytes o) 0 (wrap32 nc) (hasUnicode o) ua
               (firstn (Z.to_nat (numChars o)) (unicode o)
                ++ firstn (Z.to_nat appendNumChars) src))).

(** [AppendUtfToUnicodeRep(objPtr, src, numBytes)]. *)
Definition AppendUtfToUnicodeRep (o : StringObj) (src : list Z) (numBytes : Z)
    : StringObj :=
  if numBytes =? 0 then o
  else set_allocated
         (invalidate_string_rep (ExtendUnicodeRepWithString o src numBytes (-1))) 0.

(** The dispatch of [Tcl_AppendLimitedToObj] on [hasUnicode]. *)
Definition append_utf (o : StringObj) (src : list Z) (n : Z) : Res StringObj :=
  if hasUnicode o then Ok (AppendUtfToUnicodeRep o src n)
  else AppendUtfToUtfRep o src n.

(** [Tcl_AppendLimitedToObj(objPtr, src, length, limit, ellipsis)]; [None]
    for a NULL ellipsis. *)
Definition Tcl_AppendLimitedToObj (o : StringObj) (src : list Z)
    (length limit : Z) (ellipsis : option (list Z)) : Res StringObj :=
  if shared o then Panic else
  let length := if length <? 0 then strlen src else length in
  if length =? 0 then Ok o else
  let ell := match ellipsis with Some e => e | None => [46; 46; 46] end in
  let toCopy := if length <=? limit then length
                else Tcl_UtfPrev src (limit + 1 - strlen ell) in
  o1 <- append_utf o src toCopy ;;
  if length <=? limit then Ok o1
  else append_utf o1 ell (strlen ell).

(** [Tcl_AppendToObj]. *)
Definition Tcl_AppendToObj (o : StringObj) (src : list Z) (length : Z)
    : Res StringObj :=
  Tcl_AppendLimitedToObj o src length INT_MAX None.

(** ** [Tcl_AppendObjToObj] and the helpers the format engine uses *)

(** [UpdateStringOfString]: the string rep regenerated from the unicode
    rep ([ExtendStringRepWithUnicode] on an object without bytes), on its
    path without a panic: the panics on a size past [INT_MAX] and on a
    failed [ckrealloc] are left out. *)
Definition UpdateStringOfString (o : StringObj) : StringObj :=
  let b := utf_encode (firstn (Z.to_nat (numChars o)) (unicode o)) in
  let size := Z.of_nat (length b) in
  mkObj (shared o) (Some b) (if size >? allocated o then size else allocated o)
        (numChars o) (hasUnicode o) (uallocated o) (unicode o).

(** [TclGetStringFromObj(objPtr, &length)]: the bytes, regenerated when
    [objPtr->bytes] is NULL. *)
Definition TclGetStringFromObj (o : StringObj) : list Z * StringObj :=
  match bytes o with
  | Some b => (b, o)
  | None => let o' := UpdateStringOfString o in (obj_bytes o', o')
  end.

(** [Tcl_NewUnicodeObj(unicode, numChars)] ([SetUnicodeObj]) for
    [numChars >= 0]. *)
Definition Tcl_NewUnicodeObj (u : list Z) (n : Z) : StringObj :=
  mkObj false None 0 n (n >? 0) (STRING_UALLOC n) (firstn (Z.to_nat n) u).

(** [Tcl_GetRange(objPtr, first, last)] on an object of string type. *)
Definition Tcl_GetRange (o : StringObj) (first last : Z) : StringObj :=
  let o1 := if numChars o =? -1 then snd (Tcl_GetCharLength o) else o in
  let n := last - first + 1 in
  match bytes o1 with
  | Some b =>
      if numChars o1 =? Z.of_nat (length b)
      then set_chars (fresh_string (firstn (Z.to_nat n) (skipn (Z.to_nat first) b))) n false
      else Tcl_NewUnicodeObj (skipn (Z.to_nat first) (unicode o1)) n
  | None => Tcl_NewUnicodeObj (skipn (Z.to_nat first) (unicode o1)) n
  end.

(** [Tcl_AppendObjToObj(objPtr, appendObjPtr)] for an [appendObjPtr] of
    string type (the pure byte-array case is not modelled). *)
Definition Tcl_AppendObjToObj (o seg : StringObj) : Res StringObj :=
  if hasUnicode o then
    let seg1 := if (numChars seg =? -1) || negb (hasUnicode seg)
                then FillUnicodeRep seg else seg in
    AppendUnicodeToUnicodeRep o (unicode seg1) (numChars seg1)
  else
    let '(b, seg1) := TclGetStringFromObj seg in
    let length := Z.of_nat (List.length b) in
    let nc := numChars o in
    let allOneByteChars := (nc >=? 0) && (numChars seg1 >=? 0)
                           && (numChars seg1 =? length) in
    o1 <- AppendUtfToUtfRep o b length ;;
    Ok (if allOneByteChars then set_chars o1 (nc + numChars seg1) (hasUnicode o1)
        else o1).

(** ** The format engine: [Tcl_AppendFormatToObj] *)

(** Modelled from the spec: an argument as the engine reads it through the
    coercions of generic/tclObj.c (not in this tree): its string object, its
    integer value if it has one, and, if it is a double [d], the bytes that
    [sprintf(buf, spec, d)] writes for a conversion spec [spec]. *)
Record Arg := mkArg {
  arg_obj : StringObj;
  arg_int : option Z;
  arg_double : option (list Z -> list Z)
}.

Definition UINT_MAX : Z := 4294967295.

(** Modelled from the spec: [TclGetIntFromObj] accepts an integer in
    [-UINT_MAX, UINT_MAX] and truncates it to [int]. *)
Definition GetIntFromObj (a : Arg) : option Z :=
  match arg_int a with
  | Some v => if (- UINT_MAX <=? v) && (v <=? UINT_MAX) then Some (wrap32 v) else None
  | None => None
  end.

(** Modelled from the spec: the [long] that the chain
    [TclGetLongFromObj] / [Tcl_GetWideIntFromObj] /
    [Tcl_GetBignumFromObj] + [mp_mod_2d] yields on LP64: the integer
    reduced to 64 bits. *)
Definition GetLongChain (a : Arg) : option Z := option_map wrap64 (arg_int a).

(** [Tcl_GetBignumFromObj]. *)
Definition GetBignumFromObj (a : Arg) : option Z := arg_int a.

(** Modelled from the spec: the decimal string rep of an integer value
    ([Tcl_NewLongObj], [Tcl_NewBignumObj], [sprintf("%d")]). *)
Fixpoint dec_digits (fuel : nat) (n : Z) : list Z :=
  match fuel with
  | O => []
  | S f => if n <? 10 then [48 + n] else dec_digits f (n / 10) ++ [48 + n mod 10]
  end.

Definition int_string (v : Z) : list Z :=
  (if v <? 0 then [45] else [])
  ++ dec_digits (S (Z.to_nat (Z.log2 (Z.abs v)))) (Z.abs v).

(** [while (u) { numDigits++; u /= base; }] *)
Fixpoint count_digits (fuel : nat) (u base : Z) : Z :=
  match fuel with
  | O => 0
  | S f => if u =? 0 then 0 else 1 + count_digits f (u / base) base
  end.

Definition num_digits (u base : Z) : Z :=
  count_digits (S (Z.to_nat (Z.log2 u))) u base.

Definition digit_char (d : Z) : Z := if d >? 9 then 97 + d - 10 else 48 + d.

(** The loop [while (numDigits--) { ... bytes[numDigits] = ...; bits /= base; }]:
    digits are written from the last position back to the first. *)
Fixpoint emit_digits (k : nat) (bits base : Z) : list Z :=
  match k with
  | O => []
  | S k' => emit_digits k' (bits / base) base ++ [digit_char (bits mod base)]
  end.

(** Modelled from the spec: [Tcl_UtfToUpper] on the ASCII segments it is
    applied to here. *)
Definition Tcl_UtfToUpper (b : list Z) : list Z :=
  map (fun c => if (97 <=? c) && (c <=? 122) then c - 32 else c) b.

(** [isdigit(UCHAR(ch))]. *)
Definition isdigit_uchar (ch : Z) : bool :=
  let c := ch mod 256 in (48 <=? c) && (c <=? 57).

Fixpoint digit_run (s : list Z) : nat :=
  match s with
  | c :: t => if (48 <=? c) && (c <=? 57) then S (digit_run t) else O
  | [] => O
  end.

(** [int n = strtoul(format, &end, 10)] where [format] starts with a digit:
    the value saturates at [ULONG_MAX] and is then stored in an [int]. *)
Definition strtoul_int (s : list Z) : Z * list Z :=
  let k := digit_run s in
  let v := fold_left (fun acc c => acc * 10 + (c - 48)) (firstn k s) 0 in
  (wrap32 (Z.min v (2 ^ 64 - 1)), skipn k s).

Record Flags := mkFlags {
  gotMinus : bool; gotHash : bool; gotZero : bool; gotSpace : bool; gotPlus : bool
}.

Definition no_flags : Flags := mkFlags false false false false false.

(** The [switch] of step 2: the flag that [ch] sets, if it is one. *)
Definition set_flag (ch : Z) (fl : Flags) : option Flags :=
  let '(mkFlags m h z s p) := fl in
  if ch =? 45 then Some (mkFlags true h z s p)
  else if ch =? 35 then Some (mkFlags m true z s p)
  else if ch =? 48 then Some (mkFlags m h true s p)
  else if ch =? 32 then Some (mkFlags m h z true p)
  else if ch =? 43 then Some (mkFlags m h z s true)
  else None.

(** Step 2: [format] points at the character [ch] of width [step]. *)
Fixpoint scan_flags (fuel : nat) (format : list Z) (step ch : Z) (fl : Flags)
    : list Z * Z * Z * Flags :=
  match fuel with
  | O => (format, step, ch, fl)
  | S f =>
      match set_flag ch fl with
      | None => (format, step, ch, fl)
      | Some fl' =>
          let format' := skipn (Z.to_nat step) format in
          let '(step', ch') := Tcl_UtfToUniChar format' in
          scan_flags f format' step' ch' fl'
      end
  end.

(** A parsed conversion specifier. *)
Record ConvSpec := mkSpec {
  sp_flags : Flags; sp_width : Z; sp_gotPrecision : bool; sp_precision : Z;
  sp_useShort : bool; sp_useBig : bool; sp_ch : Z
}.

(** Steps 2 to 5 and the conversion character: from [format] pointing at
    [ch] (of width [step]) with the argument index [objIndex].  [None] is a
    jump to [error]/[errorMsg]; otherwise the specifier, the template after
    the conversion character and the argument index. *)
Definition parse_spec (objv : list Arg) (objIndex : Z) (format : list Z) (step ch : Z)
    : option (ConvSpec * list Z * Z) :=
  let objc := Z.of_nat (length objv) in
  let '(format, step, ch, fl) :=
    scan_flags (S (length format)) format step ch no_flags in
  (* Step 3 *)
  let width_r :=
    if isdigit_uchar ch then
      let '(w, end_) := strtoul_int format in
      let '(step, ch) := Tcl_UtfToUniChar end_ in
      Some (w, fl, objIndex, end_, step, ch)
    else if ch =? 42 then
      if objIndex >=? objc - 1 then None else
      match GetIntFromObj (nth (Z.to_nat objIndex) objv (mkArg (fresh_string []) None None)) with
      | None => None
      | Some w =>
          let '(w, fl) := if w <? 0
                          then (wrap32 (- w), mkFlags true (gotHash fl) (gotZero fl)
                                                      (gotSpace fl) (gotPlus fl))
                          else (w, fl) in
          let format := skipn (Z.to_nat step) format in
          let '(step, ch) := Tcl_UtfToUniChar format in
          Some (w, fl, objIndex + 1, format, step, ch)
      end
    else Some (0, fl, objIndex, format, step, ch) in
  match width_r with None => None | Some (width, fl, objIndex, format, step, ch) =>
  (* Step 4 *)
  let '(gotPrecision, format, step, ch) :=
    if ch =? 46 then
      let format := skipn (Z.to_nat step) format in
      let '(step, ch) := Tcl_UtfToUniChar format in (true, format, step, ch)
    else (false, format, step, ch) in
  let prec_r :=
    if isdigit_uchar ch then
      let '(p, end_) := strtoul_int format in
      let '(step, ch) := Tcl_UtfToUniChar end_ in
      Some (p, objIndex, end_, step, ch)
    else if ch =? 42 then
      if objIndex >=? objc - 1 then None else
      match GetIntFromObj (nth (Z.to_nat objIndex) objv (mkArg (fresh_string []) None None)) with
      | None => None
      | Some p =>
          let p := if p <? 0 then 0 else p in
          let format := skipn (Z.to_nat step) format in
          let '(step, ch) := Tcl_UtfToUniChar format in
          Some (p, objIndex + 1, format, step, ch)
      end
    else Some (0, objIndex, format, step, ch) in
  match prec_r with None => None | Some (precision, objIndex, format, step, ch) =>
  (* Step 5 *)
  let '(useShort, useBig, format, step, ch) :=
    if ch =? 104 then
      let format := skipn (Z.to_nat step) format in
      let '(step, ch) := Tcl_UtfToUniChar format in (true, false, format, step, ch)
    else if ch =? 108 then
      let format := skipn (Z.to_nat step) format in
      let '(step, ch) := Tcl_UtfToUniChar format in
      if ch =? 108 then
        let format := skipn (Z.to_nat step) format in
        let '(step, ch) := Tcl_UtfToUniChar format in (false, true, format, step, ch)
      else (false, false, format, step, ch)
    else (false, false, format, step, ch) in
  let format := skipn (Z.to_nat step) format in
  let ch := if ch =? 105 then 100 else ch in
  Some (mkSpec fl width gotPrecision precision useShort useBig ch, format, objIndex)
  end end.

(** The [while (length < precision)] and [if (gotZero)] loops shared by the
    two integer branches: [segment] so far, the digit count [length];
    returns the segment before the digits and the new [gotZero]. *)
Definition int_zero_fill (segment : list Z) (length : Z) (sp : ConvSpec)
    (precision : Z) : list Z * bool :=
  let '(segment, length, gz) :=
    if sp_gotPrecision sp
    then (segment ++ repeat 48 (Z.to_nat (precision - length)),
          Z.max length precision, false)
    else (segment, length, gotZero (sp_flags sp)) in
  if gz then
    let length := length + fst (Tcl_GetCharLength (fresh_string segment)) in
    (segment ++ repeat 48 (Z.to_nat (sp_width sp - length)), gz)
  else (segment, gz).

(** The sign skipped: [if (bytes[0] == '-') { length--; bytes++; }] *)
Definition skip_minus (b : list Z) : list Z :=
  match b with c :: t => if c =? 45 then t else b | [] => [] end.

(** The digits of an integer conversion of [v] ([big] and [l] carry the
    same value in the model): for [d] the decimal rep of the value with its
    sign stripped ([pure] after [bytes++]), for the others the
    [numDigits]-digit string [pure].  The bignum digit walk over [big.dp] is
    modelled by the magnitude it reads. *)
Definition int_digits (ch : Z) (fl : Flags) (useShort useBig : bool) (v : Z) : list Z :=
  let s := wrap16 v in
  if ch =? 100 then
    let pure := if useShort then int_string s
                else if useBig then int_string v else int_string v in
    let digits := skip_minus pure in
    firstn (Z.to_nat (strlen digits)) digits
  else
    let base := if ch =? 117 then 10 else if ch =? 111 then 8
                else if ch =? 98 then 2 else 16 in
    let bits := if useShort then s mod 2 ^ 16
                else if useBig then Z.abs v else v mod 2 ^ 64 in
    let numDigits := num_digits bits base in
    let numDigits := if (numDigits =? 0) && negb ((ch =? 111) && gotHash fl)
                     then 1 else numDigits in
    emit_digits (Z.to_nat numDigits) bits base.

(** The sign glyph: [if ((isNegative || gotPlus || gotSpace) && (useBig || ch=='d'))]. *)
Definition int_sign (ch : Z) (fl : Flags) (useBig isNegative : bool) : list Z :=
  if (isNegative || gotPlus fl || gotSpace fl) && (useBig || (ch =? 100))
  then [if isNegative then 45 else if gotPlus fl then 43 else 32] else [].

(** The integer conversions [d o x X b u]: the segment bytes and the new
    [gotZero]; [None] when the argument is not an integer.  For [d] the
    zero fill counts the digits only ([length] of [pure]); for the others
    it counts [numDigits]. *)
Definition format_integer (sp : ConvSpec) (a : Arg) : option (list Z * bool) :=
  let ch := sp_ch sp in
  let fl := sp_flags sp in
  let useShort := sp_useShort sp in
  let useBig := sp_useBig sp in
  let coerced := if useBig then GetBignumFromObj a else GetLongChain a in
  match coerced with None => None | Some v =>
  let s := wrap16 v in
  let isNegative := if useBig then v <? 0 else if useShort then s <? 0 else v <? 0 in
  let segment := int_sign ch fl useBig isNegative in
  let segment :=
    if gotHash fl then
      if ch =? 111 then segment ++ [48]
      else if (ch =? 120) || (ch =? 88) then segment ++ [48; 120]
      else if ch =? 98 then segment ++ [48; 98]
      else segment
    else segment in
  let precision := if gotHash fl && (ch =? 111) then sp_precision sp - 1
                   else sp_precision sp in
  let pure := int_digits ch fl useShort useBig v in
  let '(segment, gz) := int_zero_fill segment (Z.of_nat (length pure)) sp precision in
  Some (segment ++ pure, gz)
  end.

(** The [sprintf] format built for the floating conversions. *)
Definition float_spec (sp : ConvSpec) : list Z :=
  let fl := sp_flags sp in
  [37] ++ (if gotMinus fl then [45] else []) ++ (if gotHash fl then [35] else [])
  ++ (if gotZero fl then [48] else []) ++ (if gotSpace fl then [32] else [])
  ++ (if gotPlus fl then [43] else [])
  ++ (if sp_width sp =? 0 then [] else int_string (sp_width sp))
  ++ (if sp_gotPrecision sp then 46 :: int_string (sp_precision sp) else [])
  ++ [sp_ch sp].

(** Step 6: the segment object and the new [gotZero]; [None] is a jump to
    [error]/[errorMsg]. *)
Definition convert (sp : ConvSpec) (a : Arg) : option (StringObj * bool) :=
  let ch := sp_ch sp in
  let gz := gotZero (sp_flags sp) in
  if ch =? 0 then None
  else if ch =? 115 then
    let '(numChars, segment) := Tcl_GetCharLength (arg_obj a) in
    if sp_gotPrecision sp && (sp_precision sp <? numChars)
    then Some (Tcl_GetRange segment 0 (sp_precision sp - 1), gz)
    else Some (segment, gz)
  else if ch =? 99 then
    match GetIntFromObj a with
    | None => None
    | Some code => Some (fresh_string (Tcl_UniCharToUtf code), gz)
    end
  else if (ch =? 117) && sp_useBig sp then None
  else if (ch =? 117) || (ch =? 100) || (ch =? 111) || (ch =? 120) || (ch =? 88)
          || (ch =? 98) then
    match format_integer sp a with
    | None => None
    | Some (b, gz') => Some (fresh_string b, gz')
    end
  else if (ch =? 101) || (ch =? 69) || (ch =? 102) || (ch =? 103) || (ch =? 71) then
    match arg_double a with
    | None => None
    | Some sprintf_d => Some (fresh_string (sprintf_d (float_spec sp)), gz)
    end
  else None.

(** [Tcl_SetObjLength(segment, Tcl_UtfToUpper(TclGetString(segment)))]
    for [E], [G] and [X]. *)
Definition upcase_segment (ch : Z) (segment : StringObj) : StringObj :=
  if (ch =? 69) || (ch =? 71) || (ch =? 88)
  then fresh_string (Tcl_UtfToUpper (obj_bytes segment)) else segment.

(** [while (numChars < width) Tcl_AppendToObj(appendObj, pad, 1)], [k]
    rounds. *)
Fixpoint append_pad (k : nat) (o : StringObj) (c : Z) : Res StringObj :=
  match k with
  | O => Ok o
  | S k' => o1 <- Tcl_AppendToObj o [c] 1 ;; append_pad k' o1 c
  end.

(** The padding step: [numChars = Tcl_GetCharLength(segment)], the left
    padding unless [gotMinus], the segment, then the right padding; the pad
    is ["0"] when [gotZero] holds, [" "] otherwise. *)
Definition emit_padded (dest segment : StringObj) (minus zero : bool) (width : Z)
    : Res StringObj :=
  let '(numChars, segment) := Tcl_GetCharLength segment in
  let padc := if zero then 48 else 32 in
  dest <- (if minus then Ok dest
           else append_pad (Z.to_nat (width - numChars)) dest padc) ;;
  let numChars := if minus then numChars else Z.max numChars width in
  dest <- Tcl_AppendObjToObj dest segment ;;
  append_pad (Z.to_nat (width - numChars)) dest padc.

(** The state of the main loop. *)
Record FmtState := mkFmt {
  fs_format : list Z;        (* format *)
  fs_span : list Z;          (* span *)
  fs_numBytes : Z;           (* numBytes *)
  fs_objIndex : Z;           (* objIndex *)
  fs_gotXpg : bool;          (* gotXpg *)
  fs_gotSequential : bool;   (* gotSequential *)
  fs_dest : StringObj        (* appendObj *)
}.

(** The end of a round: [Next] continues the loop, [Stop] leaves it
    normally, [Fail] jumps to [error] with the destination as it is. *)
Inductive Round := Next (st : FmtState) | Stop (st : FmtState) | Fail (dest : StringObj).

(** One round of the main [while] loop over the template. *)
Definition format_round (objv : list Arg) (st : FmtState) : Res Round :=
  let '(mkFmt format span numBytes objIndex gotXpg gotSequential dest) := st in
  if byte_at format 0 =? 0 then Ok (Stop st) else
  let '(step, ch) := Tcl_UtfToUniChar format in
  let format := skipn (Z.to_nat step) format in
  if negb (ch =? 37) then
    Ok (Next (mkFmt format span (numBytes + step) objIndex gotXpg gotSequential dest))
  else
  dest <- (if numBytes =? 0 then Ok dest else Tcl_AppendToObj dest span numBytes) ;;
  let '(step, ch) := Tcl_UtfToUniChar format in
  if ch =? 37 then
    Ok (Next (mkFmt (skipn (Z.to_nat step) format) format step objIndex gotXpg
                    gotSequential dest))
  else
  (* Step 1 *)
  let '(newXpg, objIndex, format, step, ch) :=
    if isdigit_uchar ch then
      let '(position, end_) := strtoul_int format in
      if byte_at end_ 0 =? 36 then
        let format := skipn 1 end_ in
        let '(step, ch) := Tcl_UtfToUniChar format in
        (true, wrap32 (position - 1), format, step, ch)
      else (false, objIndex, format, step, ch)
    else (false, objIndex, format, step, ch) in
  if newXpg && gotSequential then Ok (Fail dest) else
  if negb newXpg && gotXpg then Ok (Fail dest) else
  let gotXpg := gotXpg || newXpg in
  let gotSequential := gotSequential || negb newXpg in
  if (objIndex <? 0) || (objIndex >=? Z.of_nat (length objv)) then Ok (Fail dest) else
  match parse_spec objv objIndex format step ch with
  | None => Ok (Fail dest)
  | Some (sp, format, objIndex) =>
      let span := format in
      let segment := nth (Z.to_nat objIndex) objv (mkArg (fresh_string []) None None) in
      match convert sp segment with
      | None => Ok (Fail dest)
      | Some (segment, gz) =>
          let segment := upcase_segment (sp_ch sp) segment in
          dest <- emit_padded dest segment (gotMinus (sp_flags sp)) gz (sp_width sp) ;;
          let objIndex := objIndex + (if gotSequential then 1 else 0) in
          Ok (Next (mkFmt format span 0 objIndex gotXpg gotSequential dest))
      end
  end.

(** The main loop; every round but the last consumes at least one byte of
    the template, so [length format + 1] rounds suffice. *)
Fixpoint format_loop (fuel : nat) (objv : list Arg) (st : FmtState) : Res Round :=
  match fuel with
  | O => Panic
  | S f =>
      r <- format_round objv st ;;
      match r with
      | Next st' => format_loop f objv st'
      | _ => Ok r
      end
  end.

Definition TCL_OK : Z := 0.
Definition TCL_ERROR : Z := 1.

(** [Tcl_AppendFormatToObj(interp, appendObj, format, objc, objv)]: the
    return code and the destination (the message left in [interp] is not
    modelled). *)
Definition Tcl_AppendFormatToObj (appendObj : StringObj) (format : list Z)
    (objv : list Arg) : Res (Z * StringObj) :=
  if shared appendObj then Panic else
  let '(orig, appendObj) := TclGetStringFromObj appendObj in
  let originalLength := Z.of_nat (length orig) in
  r <- format_loop (S (length format)) objv
         (mkFmt format format 0 0 false false appendObj) ;;
  match r with
  | Stop st =>
      dest <- (if fs_numBytes st =? 0 then Ok (fs_dest st)
               else Tcl_AppendToObj (fs_dest st) (fs_span st) (fs_numBytes st)) ;;
      Ok (TCL_OK, dest)
  | Next st => Panic
  | Fail dest =>
      dest <- Tcl_SetObjLength dest originalLength ;;
      Ok (TCL_ERROR, dest)
  end.

(** ** [TclStringObjReverse] *)

(** [Tcl_NewObj()]: an empty value, turned into a string by the first
    [Tcl_SetObjLength]. *)
Definition Tcl_NewObj : StringObj := fresh_string [].

(** [TclStringObjReverse(objPtr)]: whether the value returned is [objPtr]
    itself, the value returned, and [objPtr] after the call. *)
Definition TclStringObjReverse (o : StringObj) : Res (bool * StringObj * StringObj) :=
  let '(numChars, o) := Tcl_GetCharLength o in
  if numChars <=? 1 then Ok (true, o, o) else
  if hasUnicode o then
    let source := unicode o in
    if shared o then
      r <- Tcl_SetObjLength (Tcl_NewUnicodeObj [0] 1) numChars ;;
      let dest := unicode r in
      (* [dest[i++] = source[lastCharIdx--]] for [i < numChars] *)
      let r := set_unicode r (uallocated r)
                 (rev (firstn (Z.to_nat numChars) source)
                  ++ skipn (Z.to_nat numChars) dest) in
      Ok (false, r, o)
    else
      let o' := set_allocated
                  (invalidate_string_rep
                     (set_unicode o (uallocated o)
                        (rev (firstn (Z.to_nat numChars) source)
                         ++ skipn (Z.to_nat numChars) source))) 0 in
      Ok (true, o', o')
  else
    let '(bytes_, o) := TclGetStringFromObj o in
    if shared o then
      r <- Tcl_SetObjLength Tcl_NewObj numChars ;;
      let dest := obj_bytes r in
      let r := set_bytes r (Some (rev (firstn (Z.to_nat numChars) bytes_)
                                  ++ skipn (Z.to_nat numChars) dest)) in
      Ok (false, r, o)
    else
      let o' := set_bytes o (Some (rev (firstn (Z.to_nat numChars) bytes_)
                                   ++ skipn (Z.to_nat numChars) bytes_)) in
      Ok (true, o', o').

(** ** Creating and setting values *)

(** [TclInitStringRep(objPtr, bytes, len)]: the empty string is the shared
    [tclEmptyStringRep]; any other string is copied into a fresh buffer of
    [len + 1] bytes. *)
Definition TclInitStringRep (src : list Z) (len : Z) : Res (list Z) :=
  if len =? 0 then Ok []
  else _ <- ckrealloc (len + 1) ;; Ok (firstn (Z.to_nat len) src).

(** [Tcl_NewStringObj(bytes, length)] for a [length] not past the bytes
    available, with the [String] rep that [SetStringFromAny] gives it on its
    first use as a string (the allocation of that small struct is not
    modelled). *)
Definition Tcl_NewStringObj (src : list Z) (len : Z) : Res StringObj :=
  let len := if len <? 0 then strlen src else len in
  b <- TclInitStringRep src len ;;
  Ok (fresh_string b).

(** [Tcl_SetStringObj(objPtr, bytes, length)], the value again seen
    through [SetStringFromAny]. *)
Definition Tcl_SetStringObj (o : StringObj) (src : list Z) (len : Z) : Res StringObj :=
  if shared o then Panic else
  let len := if len <? 0 then strlen src else len in
  b <- TclInitStringRep src len ;;
  Ok (fresh_string b).

(** [stringAlloc(numBytes)]. *)
Definition stringAlloc (numBytes : Z) : Res unit :=
  if numBytes >? INT_MAX - STRING_SIZE 0 then Panic
  else ckrealloc (STRING_SIZE (if numBytes =? 0 then 2 else numBytes)).

(** [SetUnicodeObj(objPtr, unicode, numChars)]; a negative [numChars]
    counts the code units before the first 0. *)
Definition SetUnicodeObj (o : StringObj) (u : list Z) (nchars : Z) : Res StringObj :=
  let nchars := if nchars <? 0 then strlen u else nchars in
  let ua := STRING_UALLOC nchars in
  _ <- stringAlloc ua ;;
  Ok (mkObj (shared o) None 0 nchars (nchars >? 0) ua (firstn (Z.to_nat nchars) u)).

(** [Tcl_SetUnicodeObj(objPtr, unicode, numChars)]. *)
Definition Tcl_SetUnicodeObj (o : StringObj) (u : list Z) (nchars : Z) : Res StringObj :=
  if shared o then Panic else SetUnicodeObj o u nchars.

(** ** Appending code units *)

(** [ExtendStringRepWithUnicode(objPtr, unicode, numChars)]: the count of
    code units appended, and the object.  A string rep that is the shared
    [tclEmptyStringRep] is dropped first; holding no pointers, the model does
    not tell it from another empty buffer, which gives the same string.  The
    [int] [size] running past [INT_MAX] ends in the panic. *)
Definition ExtendStringRepWithUnicode (o : StringObj) (u : list Z) (nchars : Z)
    : Res (Z * StringObj) :=
  let nchars := if nchars <? 0 then strlen u else nchars in
  if nchars >? INT_MAX then Panic else
  if nchars =? 0 then
    Ok (0, match bytes o with None => set_bytes o (Some []) | Some _ => o end)
  else
  let old := obj_bytes o in
  let enc := utf_encode (firstn (Z.to_nat nchars) u) in
  let size := Z.of_nat (length old) + Z.of_nat (length enc) in
  if size >? INT_MAX then Panic else
  o1 <- (if size >? allocated o then _ <- ckrealloc (size + 1) ;; Ok (set_allocated o size)
         else Ok o) ;;
  Ok (nchars, set_bytes o1 (Some (old ++ enc))).

(** [AppendUnicodeToUtfRep(objPtr, unicode, numChars)]. *)
Definition AppendUnicodeToUtfRep (o : StringObj) (u : list Z) (nchars : Z)
    : Res StringObj :=
  r <- ExtendStringRepWithUnicode o u nchars ;;
  let '(n, o1) := r in
  Ok (mkObj (shared o1) (bytes o1) (allocated o1)
            (if numChars o1 =? -1 then -1 else numChars o1 + n) false
            (uallocated o1) (unicode o1)).

(** [Tcl_AppendUnicodeToObj(objPtr, unicode, length)] for [length >= 0],
    as its header requires. *)
Definition Tcl_AppendUnicodeToObj (o : StringObj) (u : list Z) (len : Z) : Res StringObj :=
  if shared o then Panic else
  if len =? 0 then Ok o else
  if hasUnicode o then AppendUnicodeToUnicodeRep o u len
  else AppendUnicodeToUtfRep o u len.

(** ** [Tcl_AppendStringsToObj] *)

(** The pointer array of [Tcl_AppendStringsToObjVA]: 16 entries on the
    stack, then [ckalloc]/[ckrealloc] of [nargs_space * sizeof(char * )]
    bytes each time [nargs] reaches [nargs_space], [nargs_space] growing
    by 16. *)
Definition args_space_ok (nargs : nat) : bool :=
  forallb (fun k => alloc_ok (8 * (16 * (Z.of_nat k + 2)))) (seq 0 ((nargs - 1) / 16)).

(** [Tcl_AppendStringsToObj(objPtr, s1, ..., NULL)]
    ([Tcl_AppendStringsToObjVA]): [args] are the C strings, each read up to
    its first NUL; the [int] sums wrap.  The copy writes through
    [objPtr->bytes]; a value left without a string rep is written through a
    NULL pointer, modelled as [Panic]. *)
Definition Tcl_AppendStringsToObj (o : StringObj) (args : list (list Z)) : Res StringObj :=
  if shared o then Panic else
  if negb (args_space_ok (length args)) then Panic else
  let newLength := fold_left (fun acc s => wrap32 (acc + strlen s)) args 0 in
  if newLength =? 0 then Ok o else
  let oldLength := objLength o in
  o1 <- (if wrap32 (oldLength + newLength) >? allocated o then
           if oldLength =? 0 then Tcl_SetObjLength o newLength
           else
             r <- Tcl_AttemptSetObjLength o (wrap32 (2 * wrap32 (oldLength + newLength))) ;;
             if fst r then Ok (snd r)
             else Tcl_SetObjLength (snd r)
                    (wrap32 (wrap32 (oldLength + wrap32 (2 * newLength))
                             + TCL_GROWTH_MIN_ALLOC))
         else Ok o) ;;
  match bytes o1 with
  | None => Panic
  | Some b =>
      Ok (set_bytes o1 (Some (firstn (Z.to_nat oldLength) b
                              ++ concat (map (fun s => firstn (Z.to_nat (strlen s)) s) args))))
  end.

(** ** [Tcl_Format] *)

(** [Tcl_Format(interp, format, objc, objv)]: [None] for a NULL result. *)
Definition Tcl_Format (format : list Z) (objv : list Arg) : Res (option StringObj) :=
  r <- Tcl_AppendFormatToObj Tcl_NewObj format objv ;;
  Ok (if fst r =? TCL_OK then Some (snd r) else None).

End Allocator.

(** The visible string of a value: its string rep, regenerated from the
    unicode rep when there is none. *)
Definition obj_string (o : StringObj) : list Z := fst (TclGetStringFromObj o).

(** An integer argument: a fresh string holding its decimal rep. *)
Definition int_arg (v : Z) : Arg := mkArg (fresh_string (int_string v)) (Some v) None.

(** A string argument. *)
Definition str_arg (b : list Z) : Arg := mkArg (fresh_string b) None None.

(** [(Tcl_UniChar) c] for a [char] [c] holding the byte [b]: [char] is
    signed on x86-64, so a byte from 0x80 up is sign-extended before the
    conversion to the 16-bit [Tcl_UniChar]. *)
Definition uchar_of_char (b : Z) : Z := if b <? 128 then b else b + 65280.

(** [Tcl_GetUniChar(objPtr, index)] on an object of string type, for
    [0 <= index < numChars]: the character and the object after the call.
    The C code does not check the index; outside that range it reads past
    the buffer, and the values the model gives there mean nothing. *)
Definition Tcl_GetUniChar (o : StringObj) (index : Z) : Z * StringObj :=
  let o1 := if numChars o =? -1 then snd (Tcl_GetCharLength o) else o in
  if hasUnicode o1 then (nth (Z.to_nat index) (unicode o1) 0, o1)
  else (uchar_of_char (byte_at (obj_bytes o1) (Z.to_nat index)), o1).

(** [Tcl_GetUnicodeFromObj(objPtr, &length)] on an object of string type:
    the code units before the terminator, the length stored, and the object
    after the call. *)
Definition Tcl_GetUnicodeFromObj (o : StringObj) : list Z * Z * StringObj :=
  let o1 := if (numChars o =? -1) || negb (hasUnicode o) then FillUnicodeRep o else o in
  (firstn (Z.to_nat (numChars o1)) (unicode o1), numChars o1, o1).

(** The characters of a byte string as the decoder reads them. *)
Definition utf_chars (b : list Z) : list Z :=
  utf_decode (Z.to_nat (Tcl_NumUtfChars b (Z.of_nat (length b)))) b.

(** The characters of a value as code units, as [Tcl_GetUnicodeFromObj]
    returns them. *)
Definition obj_units (o : StringObj) : list Z := fst (fst (Tcl_GetUnicodeFromObj o)).

(** * Auxiliary definitions for the further properties *)

(** The shape of a 1-, 2- or 3-byte UTF-8 sequence: a lead byte of the
    right range and no 0 continuation byte. *)
Definition enc_shape (e : list Z) : bool :=
  match e with
  | [x] => (0 <? x) && (x <? 192)
  | [x; y] => (192 <=? x) && (x <? 224) && (0 <? y)
  | [x; y; z] => (224 <=? x) && (x <? 240) && (0 <? y) && (0 <? z)
  | _ => false
  end.

(** The encoder gives a well-shaped sequence that the decoder reads back
    whole as the same code unit. *)
Definition enc_ok (c : Z) : bool :=
  let e := Tcl_UniCharToUtf c in
  enc_shape e && (fst (Tcl_UtfToUniChar e) =? Z.of_nat (length e))
  && (snd (Tcl_UtfToUniChar e) =? c).

(** The bytes [Tcl_AppendStringsToObjVA] counts for its arguments. *)
Definition strings_length (args : list (list Z)) : Z :=
  fold_right (fun s acc => strlen s + acc) 0 args.

(** Every suffix of [s] starts with a one-byte character. *)
Definition units_one (s : list Z) : Prop :=
  forall p, (p < length s)%nat -> fst (Tcl_UtfToUniChar (skipn p s)) = 1.

(** * Properties *)

Example GetCharLength_ascii :
  Tcl_GetCharLength (fresh_string [104; 105]) = (2, set_chars (fresh_string [104; 105]) 2 false).
Proof. reflexivity. Qed.

Example GetCharLength_eacute :
  fst (Tcl_GetCharLength (fresh_string [97; 195; 169])) = 2
  /\ hasUnicode (snd (Tcl_GetCharLength (fresh_string [97; 195; 169]))) = true
  /\ unicode (snd (Tcl_GetCharLength (fresh_string [97; 195; 169]))) = [97; 233].
Proof. repeat split; reflexivity. Qed.

Lemma UtfToUniChar_width (s : list Z) :
  s <> [] -> 1 <= fst (Tcl_UtfToUniChar s) <= Z.of_nat (length s).
Proof.
  intros Hs.
  destruct s as [|b0 [|b1 [|b2 t]]]; [congruence| | |];
    unfold Tcl_UtfToUniChar, byte_at; cbn [nth length];
    replace (is_trail 0) with false by reflexivity; rewrite ?andb_false_r;
    repeat match goal with
           | |- context [if ?c then _ else _] => destruct c
           end; cbn [fst]; lia.
Qed.

Lemma UtfToUniChar_ascii (s : list Z) :
  (byte_at s 0 <? 192) = true -> fst (Tcl_UtfToUniChar s) = 1.
Proof. intros H. unfold Tcl_UtfToUniChar. now rewrite H. Qed.

(** One round of the counting loop consumes [fst (Tcl_UtfToUniChar src)]. *)
Lemma NumUtfChars_loop_step (f : nat) (src : list Z) (length : Z) :
  length > 0 ->
  NumUtfChars_loop (S f) src length =
  1 + NumUtfChars_loop f (skipn (Z.to_nat (fst (Tcl_UtfToUniChar src))) src)
                         (length - fst (Tcl_UtfToUniChar src)).
Proof.
  intros H. cbn [NumUtfChars_loop].
  replace (length >? 0) with true by lia.
  destruct (byte_at src 0 <? 192) eqn:E; [|reflexivity].
  now rewrite (UtfToUniChar_ascii _ E).
Qed.

Lemma skipn_length_Z (k : nat) (s : list Z) :
  Z.of_nat (length (skipn k s)) = Z.of_nat (length s) - Z.of_nat (Nat.min k (length s)).
Proof. rewrite length_skipn. lia. Qed.

(** Splitting the reference count after a run of bytes below 0xC0. *)
Lemma NumUtfChars_ascii_split (k : nat) (s : list Z) (len : Z) :
  (k <= ascii_prefix s)%nat -> Z.of_nat k <= len ->
  Tcl_NumUtfChars s len = Z.of_nat k + Tcl_NumUtfChars (skipn k s) (len - Z.of_nat k).
Proof.
  revert s len. induction k as [|k IH]; intros s len Hk Hlen.
  - cbn [skipn]. rewrite Z.sub_0_r. lia.
  - destruct s as [|b t]; cbn [ascii_prefix] in Hk; [lia|].
    destruct (b <? 192) eqn:Eb; [|lia].
    unfold Tcl_NumUtfChars at 1.
    replace (Z.to_nat len) with (S (Z.to_nat (len - 1))) by lia.
    cbn [NumUtfChars_loop]. replace (len >? 0) with true by lia.
    unfold byte_at; cbn [nth]. rewrite Eb. cbn [skipn].
    fold (Tcl_NumUtfChars t (len - 1)).
    rewrite (IH t (len - 1)) by lia.
    replace (len - 1 - Z.of_nat k) with (len - Z.of_nat (S k)) by lia. lia.
Qed.

Lemma NumUtfChars_loop_nonneg (f : nat) (s : list Z) (len : Z) :
  0 <= NumUtfChars_loop f s len.
Proof.
  revert s len. induction f as [|f IH]; intros s len; cbn [NumUtfChars_loop]; [lia|].
  destruct (len >? 0); [|lia].
  destruct (byte_at s 0 <? 192); [specialize (IH (skipn 1 s) (len - 1))|
    specialize (IH (skipn (Z.to_nat (fst (Tcl_UtfToUniChar s))) s)
                   (len - fst (Tcl_UtfToUniChar s)))]; lia.
Qed.

(** The count of a buffer of [length s] bytes: at most [length s], with
    equality exactly when every character is a single byte. *)
Lemma NumUtfChars_loop_le (f : nat) (s : list Z) :
  (length s <= f)%nat ->
  NumUtfChars_loop f s (Z.of_nat (length s)) <= Z.of_nat (length s)
  /\ (NumUtfChars_loop f s (Z.of_nat (length s)) = Z.of_nat (length s)
      <-> single_unit_loop f s (Z.of_nat (length s)) = true)
  /\ (0 < Z.of_nat (length s) -> 1 <= NumUtfChars_loop f s (Z.of_nat (length s))).
Proof.
  revert s. induction f as [|f IH]; intros s Hf.
  - assert (length s = 0%nat) by lia. rewrite H. cbn. repeat split; lia.
  - destruct s as [|b t] eqn:Es.
    + cbn. repeat split; lia.
    + rewrite <- Es in Hf |- *. assert (Hne : s <> []) by (subst; discriminate).
      pose proof (UtfToUniChar_width s Hne) as Hw.
      set (w := fst (Tcl_UtfToUniChar s)) in *.
      rewrite NumUtfChars_loop_step by lia. fold w.
      cbn [single_unit_loop]. replace (Z.of_nat (length s) >? 0) with true by lia.
      fold w.
      assert (Hr : Z.of_nat (length s) - w = Z.of_nat (length (skipn (Z.to_nat w) s)))
        by (rewrite length_skipn; lia).
      rewrite Hr.
      destruct (IH (skipn (Z.to_nat w) s)) as [Hle [Heq _]];
        [rewrite length_skipn; lia|].
      pose proof (NumUtfChars_loop_nonneg f (skipn (Z.to_nat w) s)
                    (Z.of_nat (length (skipn (Z.to_nat w) s)))).
      repeat split; try lia.
      * intros Hc. rewrite andb_true_iff, Z.eqb_eq. split; [|apply Heq]; lia.
      * rewrite andb_true_iff, Z.eqb_eq. intros [H1 H2].
        apply Heq in H2. lia.
Qed.

Lemma ascii_prefix_le (s : list Z) : (ascii_prefix s <= length s)%nat.
Proof. induction s as [|b t IH]; cbn; [lia|]. destruct (b <? 192); lia. Qed.

(** The fast path of [Tcl_GetCharLength] computes the reference count. *)
Lemma fast_path_count (b : list Z) :
  let len := Z.of_nat (length b) in
  let i := len - Z.of_nat (ascii_prefix b) in
  (if i =? 0 then len - i
   else len - i + Tcl_NumUtfChars (skipn (Z.to_nat (len - i)) b) i)
  = Tcl_NumUtfChars b len.
Proof.
  cbv zeta. pose proof (ascii_prefix_le b) as Hp.
  rewrite (NumUtfChars_ascii_split (ascii_prefix b) b) by lia.
  replace (Z.of_nat (length b) - (Z.of_nat (length b) - Z.of_nat (ascii_prefix b)))
    with (Z.of_nat (ascii_prefix b)) by lia.
  rewrite Nat2Z.id.
  destruct (Z.of_nat (length b) - Z.of_nat (ascii_prefix b) =? 0) eqn:E.
  - apply Z.eqb_eq in E. rewrite E. unfold Tcl_NumUtfChars. cbn. lia.
  - lia.
Qed.

Lemma FillUnicodeRep_counts (o : StringObj) :
  hasUnicode o = false -> 0 <= numChars o ->
  numChars (FillUnicodeRep o) = numChars o
  /\ hasUnicode (FillUnicodeRep o) = (numChars o >? 0).
Proof.
  intros Hu Hn. unfold FillUnicodeRep, ExtendUnicodeRepWithString.
  rewrite Hu. replace (numChars o =? -1) with false by lia. cbn. split; reflexivity.
Qed.

Lemma GetCharLength_fresh (b : list Z) (sh : bool) (al ua : Z) (u : list Z) :
  let o := mkObj sh (Some b) al (-1) false ua u in
  let n := Tcl_NumUtfChars b (Z.of_nat (length b)) in
  Tcl_GetCharLength o =
  if n =? Z.of_nat (length b) then (n, set_chars o n false)
  else (numChars (FillUnicodeRep (set_chars o n false)),
        FillUnicodeRep (set_chars o n false)).
Proof.
  cbv zeta. unfold Tcl_GetCharLength, objLength, obj_bytes. cbn [numChars bytes hasUnicode].
  rewrite Z.eqb_refl.
  pose proof (fast_path_count b) as H. cbv zeta in H. rewrite H.
  reflexivity.
Qed.

(** C3: for every byte sequence [b], the character length computed on first
    use by [Tcl_GetCharLength] (the run of bytes below 0xC0 counted without
    decoding, only the rest decoded) equals the reference count
    [Tcl_NumUtfChars] over all of [b]. *)
Theorem GetCharLength_refines_NumUtfChars (b : list Z) (sh : bool) (al ua : Z) (u : list Z) :
  fst (Tcl_GetCharLength (mkObj sh (Some b) al (-1) false ua u))
  = Tcl_NumUtfChars b (Z.of_nat (length b)).
Proof.
  rewrite GetCharLength_fresh. cbv zeta.
  set (n := Tcl_NumUtfChars b (Z.of_nat (length b))).
  assert (0 <= n) by apply NumUtfChars_loop_nonneg.
  destruct (n =? Z.of_nat (length b)); [reflexivity|].
  cbn [fst]. apply FillUnicodeRep_counts; reflexivity || exact H.
Qed.

(** C5: when the character length of a byte form is computed, the unicode
    (wide) rep ends up present exactly when some character of the byte form
    takes more than one byte; when every character is a single byte, the
    wide form stays absent and the cached count equals the byte length. *)
Theorem GetCharLength_single_unit_keeps_wide_absent
    (b : list Z) (sh : bool) (al ua : Z) (u : list Z) :
  let r := Tcl_GetCharLength (mkObj sh (Some b) al (-1) false ua u) in
  hasUnicode (snd r) = negb (all_single_unit b)
  /\ (all_single_unit b = true ->
      fst r = Z.of_nat (length b) /\ numChars (snd r) = Z.of_nat (length b)).
Proof.
  cbv zeta. rewrite GetCharLength_fresh. cbv zeta.
  destruct (NumUtfChars_loop_le (length b) b (Nat.le_refl _)) as [Hle [Heq Hpos]].
  unfold all_single_unit. unfold Tcl_NumUtfChars. rewrite Nat2Z.id.
  set (n := NumUtfChars_loop (length b) b (Z.of_nat (length b))) in *.
  destruct (n =? Z.of_nat (length b)) eqn:E.
  - apply Z.eqb_eq in E. apply Heq in E as Hs. rewrite Hs.
    cbn [snd fst hasUnicode numChars set_chars].
    split; [reflexivity|]. intros _. split; exact E.
  - apply Z.eqb_neq in E.
    destruct (single_unit_loop (length b) b (Z.of_nat (length b))) eqn:Es.
    + exfalso. apply E, Heq. reflexivity.
    + split; [|discriminate].
      assert (Hn : 0 <= n) by apply NumUtfChars_loop_nonneg.
      destruct (FillUnicodeRep_counts (set_chars (mkObj sh (Some b) al (-1) false ua u) n false))
        as [_ Hh]; [reflexivity|exact Hn|].
      cbn [snd]. rewrite Hh. cbn [numChars set_chars].
      assert (Hlen : 0 < Z.of_nat (length b)).
      { destruct b as [|x t]; [exfalso; apply E; subst n; reflexivity|cbn; lia]. }
      assert (1 <= n) by (apply Hpos; exact Hlen).
      cbn [negb]. apply Z.gtb_lt. lia.
Qed.

Lemma wrap32_small (x : Z) : 0 <= x <= INT_MAX -> wrap32 x = x.
Proof.
  intros H. unfold wrap32, wrap, INT_MAX in *.
  rewrite Z.mod_small by lia. destruct (x >=? 2 ^ (32 - 1)) eqn:E; lia.
Qed.

Lemma wrap32_over (x : Z) : INT_MAX < x <= 2 * INT_MAX -> wrap32 x < 0.
Proof.
  intros H. unfold wrap32, wrap, INT_MAX in *.
  rewrite Z.mod_small by lia. destruct (x >=? 2 ^ (32 - 1)) eqn:E; lia.
Qed.

Lemma size_t_of_small (x : Z) : 0 <= x < 2 ^ 64 -> size_t_of x = x.
Proof. intros H. unfold size_t_of. apply Z.mod_small; lia. Qed.



(** C9: a negative length is fatal for [Tcl_SetObjLength], while
    [Tcl_AttemptSetObjLength] returns 0 and leaves the value as it was. *)
Theorem SetObjLength_negative (alloc_ok : Z -> bool) (o : StringObj) (length : Z) :
  length < 0 ->
  Tcl_SetObjLength alloc_ok o length = Panic
  /\ Tcl_AttemptSetObjLength alloc_ok o length = Ok (false, o).
Proof.
  intros H. unfold Tcl_SetObjLength, Tcl_AttemptSetObjLength.
  replace (length <? 0) with true by lia. split; reflexivity.
Qed.

Lemma SetObjLength_negative_witness :
  Tcl_SetObjLength (fun _ => true) (fresh_string [97]) (-1) = Panic
  /\ Tcl_AttemptSetObjLength (fun _ => true) (fresh_string [97]) (-1)
     = Ok (false, fresh_string [97]).
Proof. apply (SetObjLength_negative (fun _ => true) (fresh_string [97]) (-1)). lia. Defined.

(** C9 as stated fails: a negative length given to the attempt entry point
    is not fatal; the call returns 0. *)
Lemma AttemptSetObjLength_negative_not_fatal :
  Tcl_AttemptSetObjLength (fun _ => true) (fresh_string [97]) (-1)
  = Ok (false, fresh_string [97])
  /\ Tcl_AttemptSetObjLength (fun _ => true) (fresh_string [97]) (-1) <> Panic.
Proof. split; [reflexivity|discriminate]. Qed.








(** Near [INT_MAX] code units both requests of the code-unit path exceed
    what [stringAttemptRealloc] and [stringRealloc] accept, so appending
    2147483646 code units to one panics. *)
Example AppendUnicodeToUnicodeRep_near_INT_MAX_panics :
  AppendUnicodeToUnicodeRep (fun _ => true) (mkObj false None 0 1 true 2 [65]) [] 2147483646
  = Panic.
Proof. vm_compute. reflexivity. Qed.

Lemma char_starts_ge (f : nat) (s : list Z) (pos q : Z) :
  In q (char_starts f s pos) -> pos <= q.
Proof.
  revert s pos. induction f as [|f IH]; intros s pos Hin; [destruct s; contradiction|].
  destruct s as [|z t]; [contradiction|].
  cbn [char_starts] in Hin. destruct Hin as [<-|Hin]; [lia|].
  apply IH in Hin.
  pose proof (UtfToUniChar_width (z :: t) ltac:(discriminate)). lia.
Qed.

Lemma char_starts_sorted (f : nat) (s : list Z) (pos : Z) :
  StronglySorted Z.le (char_starts f s pos).
Proof.
  revert s pos. induction f as [|f IH]; intros s pos; [destruct s; constructor|].
  destruct s as [|z t]; [constructor|]. cbn [char_starts].
  constructor; [apply IH|].
  apply Forall_forall. intros q Hq. apply char_starts_ge in Hq.
  pose proof (UtfToUniChar_width (z :: t) ltac:(discriminate)). lia.
Qed.

Lemma char_starts_first (s : list Z) : s <> [] -> In 0 (char_starts (length s) s 0).
Proof. destruct s; [congruence|]. intros _. cbn. left. reflexivity. Qed.

(** The scan behind [Tcl_UtfPrev] keeps the last start below [p]. *)
Lemma fold_prev_spec (p : Z) (l : list Z) (acc : Z) :
  StronglySorted Z.le l -> (forall q, In q l -> acc <= q) ->
  let r := fold_left (fun acc q => if q <? p then q else acc) l acc in
  (r = acc \/ (In r l /\ r < p))
  /\ (forall q, In q l -> q < p -> q <= r) /\ acc <= r.
Proof.
  revert acc. induction l as [|x l IH]; intros acc Hs Hge; cbv zeta.
  - cbn. split; [left; reflexivity|]. split; [intros q []|lia].
  - cbn [fold_left]. apply StronglySorted_inv in Hs as [Hs Hx].
    rewrite Forall_forall in Hx.
    set (a' := if x <? p then x else acc).
    assert (Ha : forall q, In q l -> a' <= q).
    { intros q Hq. unfold a'. destruct (x <? p); [apply Hx, Hq|apply Hge; right; exact Hq]. }
    destruct (IH a' Hs Ha) as [H1 [H2 H3]]. cbv zeta in *.
    set (r := fold_left (fun acc q => if q <? p then q else acc) l a') in *.
    assert (Hxa : acc <= x) by (apply Hge; left; reflexivity).
    split; [|split].
    + destruct H1 as [H1|[H1 H1']].
      * unfold a' in H1. destruct (x <? p) eqn:E.
        -- right. split; [left; congruence|lia].
        -- left. exact H1.
      * right. split; [right; exact H1|exact H1'].
    + intros q [Hxq|Hq] Hqp.
      * subst q. unfold a' in H3. replace (x <? p) with true in H3 by lia. exact H3.
      * apply H2; assumption.
    + unfold a' in H3. destruct (x <? p); lia.
Qed.

Lemma UtfPrev_spec (src : list Z) (p : Z) :
  src <> [] ->
  let r := Tcl_UtfPrev src p in
  In r (char_boundaries src) /\ 0 <= r /\ (r = 0 \/ r < p)
  /\ (forall q, In q (char_boundaries src) -> q < p -> q <= r).
Proof.
  intros Hne. cbv zeta. unfold Tcl_UtfPrev, char_boundaries.
  destruct (fold_prev_spec p (char_starts (length src) src 0) 0
              (char_starts_sorted _ _ _) (fun q Hq => char_starts_ge _ _ _ _ Hq))
    as [H1 [H2 H3]].
  cbv zeta in *.
  split; [|split; [exact H3|split; [|exact H2]]].
  - destruct H1 as [H1|[H1 _]]; [rewrite H1; apply char_starts_first, Hne|exact H1].
  - destruct H1 as [H1|[_ H1]]; [left; exact H1|right; exact H1].
Qed.

Lemma SetObjLength_bytes (alloc_ok : Z -> bool) (o o' : StringObj) (b : list Z) (n : Z) :
  bytes o = Some b -> Tcl_SetObjLength alloc_ok o n = Ok o' ->
  bytes o' = Some (resize 0 b n) /\ hasUnicode o' = false.
Proof.
  intros Hb H. unfold Tcl_SetObjLength in H.
  destruct (n <? 0); [discriminate|]. destruct (shared o); [discriminate|].
  unfold has_bytes, obj_bytes in H. rewrite Hb in H. cbn [orb andb] in H.
  destruct (n >? allocated o).
  - unfold ckrealloc in H. destruct (alloc_ok (n + 1)); [|discriminate].
    cbn [andb bind] in H. unfold set_length_tail, obj_bytes in H. cbn [bytes] in H.
    rewrite ?Hb in H. injection H as <-. auto.
  - cbn [andb bind] in H. unfold set_length_tail in H. rewrite ?Hb in H. injection H as <-. auto.
Qed.

Lemma AttemptSetObjLength_bytes (alloc_ok : Z -> bool) (o o' : StringObj) (b : list Z)
    (n : Z) (t : bool) :
  bytes o = Some b -> Tcl_AttemptSetObjLength alloc_ok o n = Ok (t, o') ->
  (t = true /\ 0 <= n /\ bytes o' = Some (resize 0 b n)) \/ (t = false /\ o' = o).
Proof.
  intros Hb H. unfold Tcl_AttemptSetObjLength in H.
  destruct (n <? 0) eqn:En; [injection H as <- <-; right; auto|].
  destruct (shared o); [discriminate|].
  unfold has_bytes, obj_bytes in H. rewrite Hb in H. cbn [orb andb] in H.
  destruct (n >? allocated o); cbn [andb negb] in H.
  - destruct (alloc_ok (n + 1)); cbn [negb andb] in H; [|injection H as <- <-; right; auto].
    cbn [bytes] in H. unfold set_length_tail, obj_bytes in H. cbn [bytes bind] in H.
    rewrite ?Hb in H. injection H as <- <-. left. repeat split; lia || reflexivity.
  - rewrite ?Hb in H. unfold set_length_tail in H. rewrite ?Hb in H. cbn [bind] in H.
    injection H as <- <-. left. repeat split; lia || reflexivity.
Qed.

Lemma resize_prefix (b : list Z) (m : Z) :
  Z.of_nat (length b) <= m -> firstn (length b) (resize 0 b m) = b.
Proof.
  intros H. unfold resize. rewrite firstn_firstn.
  replace (Nat.min (length b) (Z.to_nat m)) with (length b) by lia.
  rewrite firstn_app, firstn_all, Nat.sub_diag. cbn. apply app_nil_r.
Qed.

(** [AppendUtfToUtfRep] on a byte rep appends the first [n] bytes of [src]. *)
Lemma AppendUtfToUtfRep_bytes (alloc_ok : Z -> bool) (o o' : StringObj) (b src : list Z)
    (n : Z) :
  bytes o = Some b -> 0 <= n -> AppendUtfToUtfRep alloc_ok o src n = Ok o' ->
  bytes o' = Some (b ++ firstn (Z.to_nat n) src)
  /\ (hasUnicode o = false -> hasUnicode o' = false).
Proof.
  intros Hb Hn H. unfold AppendUtfToUtfRep in H.
  destruct (n =? 0) eqn:E0.
  - injection H as <-. apply Z.eqb_eq in E0. subst n. cbn. rewrite app_nil_r. auto.
  - assert (HL : objLength o = Z.of_nat (length b))
      by (unfold objLength, obj_bytes; now rewrite Hb).
    rewrite HL in H.
    destruct (n >? INT_MAX - Z.of_nat (length b)) eqn:Emax; [discriminate|].
    set (nl := n + Z.of_nat (length b)) in H.
    destruct (nl >? allocated o) eqn:Eal.
    + destruct (Tcl_AttemptSetObjLength alloc_ok o (wrap32 (2 * nl))) as [[t r]|] eqn:Ea;
        [|discriminate].
      cbn [bind fst snd] in H.
      destruct (AttemptSetObjLength_bytes alloc_ok o r b _ t Hb Ea) as [[-> [Hm Hr]]|[-> ->]].
      * injection H as <-. cbn. split; [|reflexivity]. unfold obj_bytes. rewrite Hr.
        rewrite Nat2Z.id, resize_prefix; [reflexivity|].
        destruct (2 * nl <=? INT_MAX) eqn:E2.
        -- rewrite wrap32_small by lia. lia.
        -- pose proof (wrap32_over (2 * nl) ltac:(unfold INT_MAX in *; lia)). lia.
      * destruct (Tcl_SetObjLength alloc_ok o _) as [o1|] eqn:Es; [|discriminate].
        cbn [bind] in H. injection H as <-.
        destruct (SetObjLength_bytes alloc_ok o o1 b _ Hb Es) as [Hs _].
        cbn. split; [|reflexivity]. unfold obj_bytes. rewrite Hs.
        rewrite Nat2Z.id, resize_prefix; [reflexivity|].
        unfold TCL_GROWTH_MIN_ALLOC, INT_MAX in *.
        destruct (n + 1024 >? 2147483647 - nl); lia.
    + cbn [bind] in H. injection H as <-. cbn. split; [|reflexivity].
      unfold obj_bytes. rewrite Hb, Nat2Z.id, firstn_all. reflexivity.
Qed.

Lemma strlen_nonneg (s : list Z) : 0 <= strlen s.
Proof. induction s as [|x t IH]; cbn [strlen]; [lia|destruct (x =? 0); lia]. Qed.

(** C4: when the available length exceeds [limit], [Tcl_AppendLimitedToObj]
    copies [toCopy <= limit] bytes of [src], where [toCopy] is the last
    character boundary of [src] strictly before [limit + 1 - strlen ell]
    (or 0); it then appends the ellipsis [ell] and nothing else.  On a
    byte-only value the result is the old bytes, the prefix, then the
    ellipsis. *)
Theorem AppendLimited_truncates_on_boundary (alloc_ok : Z -> bool) (o : StringObj)
    (src : list Z) (len limit : Z) (ellipsis : option (list Z)) :
  shared o = false -> 0 <= limit ->
  let avail := if len <? 0 then strlen src else len in
  limit < avail -> avail <= Z.of_nat (List.length src) ->
  let ell := match ellipsis with Some e => e | None => [46; 46; 46] end in
  let toCopy := Tcl_UtfPrev src (limit + 1 - strlen ell) in
  (0 <= toCopy <= limit
   /\ In toCopy (char_boundaries src)
   /\ (forall q, In q (char_boundaries src) -> q < limit + 1 - strlen ell -> q <= toCopy))
  /\ Tcl_AppendLimitedToObj alloc_ok o src len limit ellipsis
     = (o1 <- append_utf alloc_ok o src toCopy ;; append_utf alloc_ok o1 ell (strlen ell))
  /\ (forall b o', bytes o = Some b -> hasUnicode o = false ->
        Tcl_AppendLimitedToObj alloc_ok o src len limit ellipsis = Ok o' ->
        bytes o' = Some (b ++ firstn (Z.to_nat toCopy) src
                           ++ firstn (Z.to_nat (strlen ell)) ell)).
Proof.
  intros Hsh Hlim avail Hav Hlen ell toCopy.
  assert (Hne : src <> []) by (intros ->; cbn in Hlen; lia).
  assert (Hell : 0 <= strlen ell) by apply strlen_nonneg.
  destruct (UtfPrev_spec src (limit + 1 - strlen ell) Hne) as (Hin & H0 & Hlt & Hmax).
  fold toCopy in Hin, H0, Hlt, Hmax.
  assert (Heq : Tcl_AppendLimitedToObj alloc_ok o src len limit ellipsis
     = (o1 <- append_utf alloc_ok o src toCopy ;; append_utf alloc_ok o1 ell (strlen ell))).
  { unfold Tcl_AppendLimitedToObj. rewrite Hsh. fold avail.
    replace (avail =? 0) with false by lia. replace (avail <=? limit) with false by lia.
    fold ell. fold toCopy. destruct (append_utf alloc_ok o src toCopy); reflexivity. }
  split; [|split; [exact Heq|]].
  - repeat split; try lia; auto.
  - intros b o' Hb Hu H. rewrite Heq in H.
    destruct (append_utf alloc_ok o src toCopy) as [o1|] eqn:E1; [|discriminate].
    cbn [bind] in H. unfold append_utf in E1, H. rewrite Hu in E1.
    destruct (AppendUtfToUtfRep_bytes alloc_ok o o1 b src toCopy Hb ltac:(lia) E1)
      as [Hb1 Hu1].
    rewrite (Hu1 Hu) in H.
    destruct (AppendUtfToUtfRep_bytes alloc_ok o1 o' _ ell (strlen ell) Hb1 Hell H)
      as [Hb2 _].
    rewrite Hb2, app_assoc. reflexivity.
Qed.

Lemma AppendLimited_truncates_on_boundary_witness :
  (shared (fresh_string [120]) = false /\ 0 <= 3
   /\ 3 < 5 /\ 5 <= Z.of_nat (List.length [97; 98; 195; 169; 99]))
  /\ Tcl_AppendLimitedToObj (fun _ => true) (fresh_string [120]) [97; 98; 195; 169; 99] 5 3
       (Some [46])
     = (o1 <- append_utf (fun _ => true) (fresh_string [120]) [97; 98; 195; 169; 99] 2 ;;
        append_utf (fun _ => true) o1 [46] 1).
Proof.
  split; [repeat split; reflexivity || lia|].
  exact (proj1 (proj2 (AppendLimited_truncates_on_boundary (fun _ => true) (fresh_string [120])
           [97; 98; 195; 169; 99] 5 3 (Some [46]) eq_refl ltac:(lia) ltac:(vm_compute; reflexivity)
           ltac:(vm_compute; discriminate)))).
Defined.

(** ** The integer conversions *)

Lemma dec_digits_ge (fuel : nat) (n : Z) :
  0 <= n -> Forall (fun c => 48 <= c) (dec_digits fuel n).
Proof.
  revert n. induction fuel as [|f IH]; intros n Hn; cbn [dec_digits]; [constructor|].
  destruct (n <? 10).
  - constructor; [lia|constructor].
  - apply Forall_app. split.
    + apply IH. apply Z.div_pos; lia.
    + constructor; [pose proof (Z.mod_pos_bound n 10); lia|constructor].
Qed.

Lemma emit_digits_ge (k : nat) (bits base : Z) :
  0 < base -> Forall (fun c => 48 <= c) (emit_digits k bits base).
Proof.
  revert bits. induction k as [|k IH]; intros bits Hb; cbn [emit_digits]; [constructor|].
  apply Forall_app. split; [apply IH; lia|].
  constructor; [|constructor].
  pose proof (Z.mod_pos_bound bits base Hb).
  unfold digit_char. destruct (bits mod base >? 9); lia.
Qed.

Lemma Forall_firstn_Z {A} (P : A -> Prop) (n : nat) (l : list A) :
  Forall P l -> Forall P (firstn n l).
Proof.
  intros H. rewrite <- (firstn_skipn n l) in H. apply Forall_app in H. tauto.
Qed.

Lemma skip_minus_ge (l : list Z) :
  Forall (fun c => 48 <= c) l -> Forall (fun c => 48 <= c) (skip_minus l).
Proof.
  intros H. destruct l as [|c t]; [constructor|]. cbn [skip_minus].
  destruct (c =? 45); [inversion H; assumption|assumption].
Qed.

Lemma int_string_digits_ge (v : Z) :
  Forall (fun c => 48 <= c) (skip_minus (int_string v)).
Proof.
  unfold int_string. destruct (v <? 0).
  - cbn [app skip_minus]. replace (45 =? 45) with true by reflexivity.
    apply dec_digits_ge. lia.
  - cbn [app]. apply skip_minus_ge, dec_digits_ge. lia.
Qed.

(** Every digit byte of an integer conversion is at least ['0']. *)
Lemma int_digits_ge (ch : Z) (fl : Flags) (us ub : bool) (v : Z) :
  Forall (fun c => 48 <= c) (int_digits ch fl us ub v).
Proof.
  unfold int_digits. destruct (ch =? 100).
  - apply Forall_firstn_Z.
    destruct us; [|destruct ub]; apply int_string_digits_ge.
  - apply emit_digits_ge.
    destruct (ch =? 117); [lia|]. destruct (ch =? 111); [lia|].
    destruct (ch =? 98); lia.
Qed.

(** The zero fill only appends ['0'] bytes. *)
Lemma int_zero_fill_shape (seg : list Z) (len : Z) (sp : ConvSpec) (prec : Z) :
  exists k, fst (int_zero_fill seg len sp prec) = seg ++ repeat 48 k
            /\ (sp_gotPrecision sp = true -> snd (int_zero_fill seg len sp prec) = false).
Proof.
  unfold int_zero_fill. destruct (sp_gotPrecision sp).
  - cbn. eexists. split; [reflexivity|auto].
  - destruct (gotZero (sp_flags sp)); cbn.
    + eexists. split; [reflexivity|discriminate].
    + exists O. rewrite app_nil_r. split; [reflexivity|discriminate].
Qed.

Lemma int_zero_fill_eta (seg : list Z) (len : Z) (sp : ConvSpec) (prec : Z) :
  int_zero_fill seg len sp prec
  = (fst (int_zero_fill seg len sp prec), snd (int_zero_fill seg len sp prec)).
Proof. destruct (int_zero_fill seg len sp prec); reflexivity. Qed.

(** The conversion prefix bytes after the sign. *)
Lemma hash_prefix_ge (fl : Flags) (ch : Z) (seg : list Z) :
  exists pre, Forall (fun c => 48 <= c) pre /\
  (if gotHash fl then
     if ch =? 111 then seg ++ [48]
     else if (ch =? 120) || (ch =? 88) then seg ++ [48; 120]
     else if ch =? 98 then seg ++ [48; 98]
     else seg
   else seg) = seg ++ pre.
Proof.
  destruct (gotHash fl); [|exists []; split; [constructor|now rewrite app_nil_r]].
  destruct (ch =? 111); [exists [48]; split; [repeat constructor; lia|reflexivity]|].
  destruct ((ch =? 120) || (ch =? 88));
    [exists [48; 120]; split; [repeat constructor; lia|reflexivity]|].
  destruct (ch =? 98); [exists [48; 98]; split; [repeat constructor; lia|reflexivity]|].
  exists []; split; [constructor|now rewrite app_nil_r].
Qed.

(** C7: the segment of an integer conversion starts with a sign glyph
    exactly when [(isNegative || gotPlus || gotSpace) && (useBig || ch == 'd')]
    holds: for [d] and for every [ll] (bignum) conversion, whatever its
    base.  The glyph is ['-'] for a negative value, else ['+'] or [' '];
    no byte after it is a sign glyph. *)
Theorem format_integer_sign (sp : ConvSpec) (a : Arg) (v : Z) (seg : list Z) (gz : bool) :
  (if sp_useBig sp then GetBignumFromObj a else GetLongChain a) = Some v ->
  format_integer sp a = Some (seg, gz) ->
  let isNegative := if sp_useBig sp then v <? 0
                    else if sp_useShort sp then wrap16 v <? 0 else v <? 0 in
  let fl := sp_flags sp in
  exists rest,
    seg = (if (isNegative || gotPlus fl || gotSpace fl) && (sp_useBig sp || (sp_ch sp =? 100))
           then [if isNegative then 45 else if gotPlus fl then 43 else 32] else [])
          ++ rest
    /\ Forall (fun c => c <> 45 /\ c <> 43 /\ c <> 32) rest.
Proof.
  intros Hv H isNegative fl.
  unfold format_integer in H. rewrite Hv in H.
  fold isNegative in H. fold fl in H.
  destruct (hash_prefix_ge fl (sp_ch sp) (int_sign (sp_ch sp) fl (sp_useBig sp) isNegative))
    as [pre [Hpre Heq]].
  rewrite Heq in H.
  rewrite int_zero_fill_eta in H.
  match type of H with
  | context [int_zero_fill ?s ?l ?p ?q] => destruct (int_zero_fill_shape s l p q) as [k [Hk _]]
  end.
  rewrite Hk in H. injection H as <- _.
  eexists. split.
  - unfold int_sign. rewrite <- !app_assoc. reflexivity.
  - assert (Hall : Forall (fun c => 48 <= c)
                     (pre ++ repeat 48 k
                      ++ int_digits (sp_ch sp) fl (sp_useShort sp) (sp_useBig sp) v)).
    { apply Forall_app. split; [exact Hpre|].
      apply Forall_app. split; [|apply int_digits_ge].
      apply Forall_forall. intros x Hx. apply repeat_spec in Hx. lia. }
    rewrite ?app_assoc in Hall |- *.
    eapply Forall_impl; [|exact Hall]. cbv beta. intros c Hc. lia.
Qed.

Lemma format_integer_sign_witness :
  ((if sp_useBig (mkSpec no_flags 0 false 0 false true 120)
    then GetBignumFromObj (int_arg (-255)) else GetLongChain (int_arg (-255))) = Some (-255)
   /\ format_integer (mkSpec no_flags 0 false 0 false true 120) (int_arg (-255))
      = Some ([45; 102; 102], false))
  /\ exists rest, [45; 102; 102] = [45] ++ rest
                  /\ Forall (fun c => c <> 45 /\ c <> 43 /\ c <> 32) rest.
Proof.
  split; [split; vm_compute; reflexivity|].
  exact (format_integer_sign (mkSpec no_flags 0 false 0 false true 120) (int_arg (-255))
           (-255) [45; 102; 102] false eq_refl ltac:(vm_compute; reflexivity)).
Defined.

(** C7 does not hold as stated: [%llx] of -255 gives ["-ff"], a sign on a
    hexadecimal conversion. *)
Lemma llx_negative_has_sign :
  exists o, Tcl_AppendFormatToObj (fun _ => true) (fresh_string []) [37; 108; 108; 120]
              [int_arg (-255)] = Ok (TCL_OK, o)
            /\ obj_string o = [45; 102; 102].
Proof. eexists. split; [vm_compute; reflexivity|reflexivity]. Qed.

(** The digits of 0: ["0"] for every integer conversion but [%#o], whose
    digit string is empty. *)
Lemma int_digits_zero (ch : Z) (fl : Flags) (us ub : bool) :
  In ch [100; 117; 111; 120; 88; 98] ->
  int_digits ch fl us ub 0 = if (ch =? 111) && gotHash fl then [] else [48].
Proof.
  intros Hin.
  destruct Hin as [<-|[<-|[<-|[<-|[<-|[<-|[]]]]]]];
    unfold int_digits; destruct us, ub; cbn [Z.eqb Pos.eqb andb];
    try reflexivity; destruct (gotHash fl); reflexivity.
Qed.

(** C10: [%#o] of 0 emits exactly ["0"]: the alternate-form prefix is the
    only digit, the digit string itself being empty; every integer
    conversion of 0 without [#o] ends its segment with the single digit
    ["0"]. *)
Theorem format_zero_digits :
  (exists o, Tcl_AppendFormatToObj (fun _ => true) (fresh_string []) [37; 35; 111]
               [int_arg 0] = Ok (TCL_OK, o)
             /\ obj_string o = [48])
  /\ (forall fl us ub, gotHash fl = true -> int_digits 111 fl us ub 0 = [])
  /\ (forall sp a seg gz,
        In (sp_ch sp) [100; 117; 111; 120; 88; 98] ->
        negb ((sp_ch sp =? 111) && gotHash (sp_flags sp)) = true ->
        (if sp_useBig sp then GetBignumFromObj a else GetLongChain a) = Some 0 ->
        format_integer sp a = Some (seg, gz) ->
        int_digits (sp_ch sp) (sp_flags sp) (sp_useShort sp) (sp_useBig sp) 0 = [48]
        /\ exists pre, seg = pre ++ [48]).
Proof.
  split; [eexists; split; [vm_compute; reflexivity|reflexivity]|].
  split.
  - intros fl us ub Hh. rewrite (int_digits_zero 111 fl us ub ltac:(cbn; tauto)), Hh.
    reflexivity.
  - intros sp a seg gz Hin Hno Hv H.
    assert (Hd : int_digits (sp_ch sp) (sp_flags sp) (sp_useShort sp) (sp_useBig sp) 0 = [48]).
    { rewrite (int_digits_zero _ _ _ _ Hin).
      destruct ((sp_ch sp =? 111) && gotHash (sp_flags sp)); [discriminate|reflexivity]. }
    split; [exact Hd|].
    unfold format_integer in H. rewrite Hv in H.
    rewrite Hd in H.
    rewrite int_zero_fill_eta in H. injection H as <- _.
    eexists. reflexivity.
Qed.

Lemma format_zero_digits_witness :
  (In (sp_ch (mkSpec no_flags 0 false 0 false false 120)) [100; 117; 111; 120; 88; 98]
   /\ negb ((sp_ch (mkSpec no_flags 0 false 0 false false 120) =? 111)
            && gotHash (sp_flags (mkSpec no_flags 0 false 0 false false 120))) = true
   /\ GetLongChain (int_arg 0) = Some 0
   /\ format_integer (mkSpec no_flags 0 false 0 false false 120) (int_arg 0) = Some ([48], false))
  /\ exists pre, [48] = pre ++ [48].
Proof.
  split; [split; [cbn; tauto|split; [reflexivity|split; [reflexivity|vm_compute; reflexivity]]]|].
  exact (proj2 (proj2 (proj2 format_zero_digits) (mkSpec no_flags 0 false 0 false false 120)
           (int_arg 0) [48] false ltac:(cbn; tauto) eq_refl eq_refl
           ltac:(vm_compute; reflexivity))).
Defined.

Lemma FillUnicodeRep_fields (o : StringObj) :
  hasUnicode o = false -> numChars o = -1 ->
  let n := Tcl_NumUtfChars (obj_bytes o) (objLength o) in
  numChars (FillUnicodeRep o) = n
  /\ unicode (FillUnicodeRep o) = utf_decode (Z.to_nat n) (obj_bytes o)
  /\ bytes (FillUnicodeRep o) = bytes o
  /\ hasUnicode (FillUnicodeRep o) = (n >? 0)
  /\ shared (FillUnicodeRep o) = shared o
  /\ allocated (FillUnicodeRep o) = allocated o.
Proof.
  intros Hu Hn. unfold FillUnicodeRep, ExtendUnicodeRepWithString.
  rewrite Hu, Hn. cbn. repeat split; reflexivity.
Qed.

Lemma FillUnicodeRep_known (o : StringObj) :
  hasUnicode o = false -> 0 <= numChars o ->
  numChars (FillUnicodeRep o) = numChars o
  /\ unicode (FillUnicodeRep o) = utf_decode (Z.to_nat (numChars o)) (obj_bytes o)
  /\ bytes (FillUnicodeRep o) = bytes o
  /\ hasUnicode (FillUnicodeRep o) = (numChars o >? 0)
  /\ shared (FillUnicodeRep o) = shared o.
Proof.
  intros Hu Hn. unfold FillUnicodeRep, ExtendUnicodeRepWithString.
  rewrite Hu. replace (numChars o =? -1) with false by lia. cbn. repeat split; reflexivity.
Qed.

(** ** The padding step *)

Lemma GetCharLength_keeps (o : StringObj) :
  bytes (snd (Tcl_GetCharLength o)) = bytes o /\ shared (snd (Tcl_GetCharLength o)) = shared o.
Proof.
  unfold Tcl_GetCharLength. destruct (numChars o =? -1); [|auto].
  cbv zeta. destruct (_ =? objLength o); cbn; auto.
Qed.

(** Computing the character length does not change the visible string. *)
Lemma GetCharLength_obj_string (o : StringObj) :
  (bytes o = None -> numChars o <> -1) ->
  obj_string (snd (Tcl_GetCharLength o)) = obj_string o.
Proof.
  intros Hwf. destruct (numChars o =? -1) eqn:E.
  - apply Z.eqb_eq in E.
    destruct (bytes o) as [b|] eqn:Hb; [|exfalso; now apply Hwf].
    destruct (GetCharLength_keeps o) as [Hk _].
    unfold obj_string, TclGetStringFromObj. now rewrite Hk, Hb.
  - unfold Tcl_GetCharLength. now rewrite E.
Qed.

(** [Tcl_AppendToObj] of bytes on a value with no unicode rep. *)
Lemma AppendToObj_bytes (alloc_ok : Z -> bool) (o o' : StringObj) (b src : list Z) (n : Z) :
  bytes o = Some b -> hasUnicode o = false -> 0 <= n <= INT_MAX ->
  Tcl_AppendToObj alloc_ok o src n = Ok o' ->
  bytes o' = Some (b ++ firstn (Z.to_nat n) src) /\ hasUnicode o' = false.
Proof.
  intros Hb Hu Hn H. unfold Tcl_AppendToObj, Tcl_AppendLimitedToObj in H.
  destruct (shared o); [discriminate|].
  replace (n <? 0) with false in H by lia. cbv zeta in H.
  destruct (n =? 0) eqn:E0.
  - injection H as <-. apply Z.eqb_eq in E0. subst n. rewrite app_nil_r. auto.
  - replace (n <=? INT_MAX) with true in H by lia.
    destruct (append_utf alloc_ok o src n) as [o1|] eqn:E1; [|discriminate].
    cbn [bind] in H. injection H as <-.
    unfold append_utf in E1. rewrite Hu in E1.
    destruct (AppendUtfToUtfRep_bytes alloc_ok o o1 b src n Hb ltac:(lia) E1) as [H1 H2].
    auto.
Qed.




Lemma obj_units_known (o : StringObj) :
  hasUnicode o = true -> numChars o <> -1 ->
  obj_units o = firstn (Z.to_nat (numChars o)) (unicode o).
Proof.
  intros Hu Hn. unfold obj_units, Tcl_GetUnicodeFromObj.
  rewrite Hu. replace (numChars o =? -1) with false by lia. reflexivity.
Qed.








(** Left justification does not cancel the zero flag: the right padding is
    then ['0'], [%-05s] of ["ab"] giving ["ab000"]. *)
Example left_justified_zero_flag_pads_right_with_zeros :
  exists o, Tcl_AppendFormatToObj (fun _ => true) (fresh_string [])
              [37; 45; 48; 53; 115] [str_arg [97; 98]] = Ok (TCL_OK, o)
            /\ obj_string o = [97; 98; 48; 48; 48].
Proof. eexists. split; [vm_compute; reflexivity|reflexivity]. Qed.

(** ** [TclStringObjReverse] and shared values *)

Lemma resize_length {A} (fill : A) (l : list A) (n : Z) :
  length (resize fill l n) = Z.to_nat n.
Proof.
  unfold resize. rewrite length_firstn, length_app, repeat_length. lia.
Qed.


Lemma SetObjLength_new_unicode (alloc_ok : Z -> bool) (n : Z) (r : StringObj) :
  1 < n -> Tcl_SetObjLength alloc_ok (Tcl_NewUnicodeObj [0] 1) n = Ok r ->
  length (unicode r) = Z.to_nat n /\ shared r = false.
Proof.
  intros Hn H. unfold Tcl_SetObjLength in H.
  replace (n <? 0) with false in H by lia. cbn [shared Tcl_NewUnicodeObj] in H.
  replace (n >? allocated (Tcl_NewUnicodeObj [0] 1)) with true in H by (cbn; lia).
  cbn [andb orb has_bytes negb hasUnicode Tcl_NewUnicodeObj bytes bind] in H.
  replace (1 >? 0) with true in H by reflexivity. cbn [negb orb andb bind] in H.
  unfold set_length_tail in H. cbn [bytes Tcl_NewUnicodeObj] in H.
  match type of H with bind ?x _ = _ => destruct x as [u|] end; [|discriminate].
  cbn [bind] in H. injection H as <-. cbn. split; [apply resize_length|reflexivity].
Qed.

Lemma SetObjLength_new_obj (alloc_ok : Z -> bool) (n : Z) (r : StringObj) :
  0 <= n -> Tcl_SetObjLength alloc_ok Tcl_NewObj n = Ok r ->
  length (obj_bytes r) = Z.to_nat n /\ shared r = false.
Proof.
  intros Hn H.
  destruct (SetObjLength_bytes alloc_ok Tcl_NewObj r [] n eq_refl H) as [Hb _].
  unfold obj_bytes. rewrite Hb. split; [apply resize_length|].
  unfold Tcl_SetObjLength in H. replace (n <? 0) with false in H by lia.
  cbn [shared Tcl_NewObj fresh_string] in H.
  destruct (_ && _); [destruct (ckrealloc alloc_ok (n + 1)); [|discriminate]|];
    cbn [bind] in H; unfold set_length_tail in H; cbn [bytes] in H;
    injection H as <-; reflexivity.
Qed.

(** C6: reversing a shared value leaves its visible string as it was; a
    value of at most one character is returned itself; one of two or more
    characters gives a new, unshared value holding the characters back to
    front (the code units when the value has a unicode rep, else the
    bytes).  The checked mutating entry points ([Tcl_SetObjLength],
    [Tcl_AppendLimitedToObj], [Tcl_AppendToObj], [Tcl_AppendFormatToObj],
    [Tcl_SetStringObj], [Tcl_SetUnicodeObj], [Tcl_AppendUnicodeToObj],
    [Tcl_AppendStringsToObj]) panic on a shared value, and
    [Tcl_AttemptSetObjLength] panics or, for a negative length, reports
    failure and leaves it as it is. *)
Theorem reverse_shared_copies (alloc_ok : Z -> bool) (o : StringObj) :
  shared o = true -> (bytes o = None -> numChars o <> -1) ->
  match TclStringObjReverse alloc_ok o with
  | Panic => True
  | Ok (same, r, after) =>
      obj_string after = obj_string o /\ shared after = true
      /\ let n := fst (Tcl_GetCharLength o) in
         let o1 := snd (Tcl_GetCharLength o) in
         (n <= 1 -> same = true /\ r = o1)
         /\ (1 < n -> same = false /\ shared r = false
              /\ (if hasUnicode o1
                  then unicode r = rev (firstn (Z.to_nat n) (unicode o1))
                  else bytes r = Some (rev (firstn (Z.to_nat n) (obj_string o)))))
  end
  /\ (forall n, Tcl_SetObjLength alloc_ok o n = Panic)
  /\ (forall n, Tcl_AttemptSetObjLength alloc_ok o n = Panic
                \/ Tcl_AttemptSetObjLength alloc_ok o n = Ok (false, o))
  /\ (forall src len limit ell, Tcl_AppendLimitedToObj alloc_ok o src len limit ell = Panic)
  /\ (forall src len, Tcl_AppendToObj alloc_ok o src len = Panic)
  /\ (forall format objv, Tcl_AppendFormatToObj alloc_ok o format objv = Panic)
  /\ (forall src len, Tcl_SetStringObj alloc_ok o src len = Panic)
  /\ (forall u n, Tcl_SetUnicodeObj alloc_ok o u n = Panic)
  /\ (forall u n, Tcl_AppendUnicodeToObj alloc_ok o u n = Panic)
  /\ (forall args, Tcl_AppendStringsToObj alloc_ok o args = Panic).
Proof.
  intros Hsh Hwf.
  split; [|split; [|split; [|split; [|split; [|split; [|split; [|split; [|split]]]]]]]].
  - pose proof (GetCharLength_obj_string o Hwf) as Hstr.
    destruct (GetCharLength_keeps o) as [Hkb Hks].
    unfold TclStringObjReverse.
    destruct (Tcl_GetCharLength o) as [n o1] eqn:Eg. cbn [fst snd] in Hstr, Hkb, Hks |- *.
    destruct (n <=? 1) eqn:En.
    + split; [congruence|split; [congruence|split; [intros _; split; reflexivity|intros; lia]]].
    + destruct (hasUnicode o1) eqn:Hu.
      * rewrite Hks, Hsh.
        destruct (Tcl_SetObjLength alloc_ok (Tcl_NewUnicodeObj [0] 1) n) as [r|] eqn:Es;
          [|exact I].
        cbn [bind].
        destruct (SetObjLength_new_unicode alloc_ok n r ltac:(lia) Es) as [Hl Hr].
        split; [congruence|split; [congruence|split; [intros; lia|intros _]]].
        split; [reflexivity|split; [exact Hr|]]. rewrite ?Hu.
        cbn [unicode set_unicode]. rewrite skipn_all2 by lia. apply app_nil_r.
      * destruct (TclGetStringFromObj o1) as [b o2] eqn:Eo.
        assert (Hb : b = obj_string o1) by (unfold obj_string; now rewrite Eo).
        assert (Hs2 : shared o2 = true /\ obj_string o2 = obj_string o1).
        { unfold TclGetStringFromObj in Eo. unfold obj_string.
          destruct (bytes o1) eqn:Hb1; injection Eo as <- <-.
          - unfold TclGetStringFromObj. rewrite Hb1. split; congruence.
          - cbn. split; [congruence|]. unfold TclGetStringFromObj. rewrite Hb1.
            reflexivity. }
        destruct Hs2 as [Hs2 Hstr2]. rewrite Hs2.
        destruct (Tcl_SetObjLength alloc_ok Tcl_NewObj n) as [r|] eqn:Es; [|exact I].
        cbn [bind].
        destruct (SetObjLength_new_obj alloc_ok n r ltac:(lia) Es) as [Hl Hr].
        split; [congruence|split; [congruence|split; [intros; lia|intros _]]].
        split; [reflexivity|split; [exact Hr|]]. rewrite ?Hu.
        cbn [bytes set_bytes]. rewrite skipn_all2 by lia. rewrite app_nil_r.
        congruence.
  - intros n. unfold Tcl_SetObjLength. rewrite Hsh. destruct (n <? 0); reflexivity.
  - intros n. unfold Tcl_AttemptSetObjLength. rewrite Hsh.
    destruct (n <? 0); [right|left]; reflexivity.
  - intros. unfold Tcl_AppendLimitedToObj. now rewrite Hsh.
  - intros. unfold Tcl_AppendToObj, Tcl_AppendLimitedToObj. now rewrite Hsh.
  - intros. unfold Tcl_AppendFormatToObj. now rewrite Hsh.
  - intros. unfold Tcl_SetStringObj. now rewrite Hsh.
  - intros. unfold Tcl_SetUnicodeObj. now rewrite Hsh.
  - intros. unfold Tcl_AppendUnicodeToObj. now rewrite Hsh.
  - intros. unfold Tcl_AppendStringsToObj. now rewrite Hsh.
Qed.

Lemma reverse_shared_copies_witness :
  (shared (mkObj true (Some [97; 98; 99]) 3 (-1) false 0 []) = true
   /\ (bytes (mkObj true (Some [97; 98; 99]) 3 (-1) false 0 []) = None ->
       numChars (mkObj true (Some [97; 98; 99]) 3 (-1) false 0 []) <> -1))
  /\ TclStringObjReverse (fun _ => true) (mkObj true (Some [97; 98; 99]) 3 (-1) false 0 [])
     = Ok (false, mkObj false (Some [99; 98; 97]) 3 (-1) false 0 [],
           mkObj true (Some [97; 98; 99]) 3 3 false 0 [])
  /\ obj_string (mkObj true (Some [97; 98; 99]) 3 3 false 0 [])
     = obj_string (mkObj true (Some [97; 98; 99]) 3 (-1) false 0 [])
  /\ shared (mkObj false (Some [99; 98; 97]) 3 (-1) false 0 []) = false.
Proof.
  assert (E : TclStringObjReverse (fun _ => true) (mkObj true (Some [97; 98; 99]) 3 (-1) false 0 [])
     = Ok (false, mkObj false (Some [99; 98; 97]) 3 (-1) false 0 [],
           mkObj true (Some [97; 98; 99]) 3 3 false 0 [])) by (vm_compute; reflexivity).
  assert (Hwf : bytes (mkObj true (Some [97; 98; 99]) 3 (-1) false 0 []) = None ->
                numChars (mkObj true (Some [97; 98; 99]) 3 (-1) false 0 []) <> -1)
    by (intros H'; discriminate H').
  generalize (proj1 (reverse_shared_copies (fun _ => true)
                       (mkObj true (Some [97; 98; 99]) 3 (-1) false 0 []) eq_refl Hwf)).
  rewrite E. intros [Hs [_ [_ Hn]]].
  split; [split; [reflexivity|intros H'; discriminate H']|].
  split; [exact E|]. split; [exact Hs|].
  exact (proj1 (proj2 (Hn ltac:(vm_compute; reflexivity)))).
Defined.

(** C6 does not hold as stated: reversing a shared one-character value
    returns that value itself, still shared; no new value is created. *)
Lemma reverse_shared_single_char_returns_self :
  TclStringObjReverse (fun _ => true) (mkObj true (Some [97]) 1 (-1) false 0 [])
  = Ok (true, mkObj true (Some [97]) 1 1 false 0 [], mkObj true (Some [97]) 1 1 false 0 []).
Proof. vm_compute. reflexivity. Qed.

(** [Tcl_AppendObjToObj] has no [Tcl_IsShared] check of its own: on a
    shared value with a unicode rep it appends in place. *)
Example AppendObjToObj_shared_unchecked :
  exists o', Tcl_AppendObjToObj (fun _ => true)
               (mkObj true (Some [195; 169]) 2 1 true 2 [233]) (fresh_string [98])
             = Ok o'
             /\ shared o' = true /\ obj_string o' = [195; 169; 98].
Proof. eexists. split; [vm_compute; reflexivity|split; reflexivity]. Qed.

(** ** Errors of the format engine *)

(** C1: the rollback of [Tcl_AppendFormatToObj] passes the byte length
    measured on entry to [Tcl_SetObjLength]; once a segment has been
    appended to a destination with a unicode rep, that destination has no
    string rep left, and [Tcl_SetObjLength] truncates its code units to
    that byte count.  On ["é"] (two bytes, one code unit), ["%d %d"] with
    the single argument 1 fails and leaves ["é1"]. *)
Theorem format_error_keeps_partial_output :
  let dest := snd (Tcl_GetCharLength (fresh_string [195; 169])) in
  obj_string dest = [195; 169] /\ hasUnicode dest = true
  /\ exists o, Tcl_AppendFormatToObj (fun _ => true) dest [37; 100; 32; 37; 100] [int_arg 1]
               = Ok (TCL_ERROR, o)
             /\ obj_string o = [195; 169; 49].
Proof.
  cbv zeta. split; [reflexivity|split; [reflexivity|]].
  eexists. split; [vm_compute; reflexivity|reflexivity].
Qed.

(** * Further properties of the string operations *)


(** For an unshared value and a non-negative length, [Tcl_AttemptSetObjLength] never panics: when it succeeds it leaves the value exactly as [Tcl_SetObjLength] does, and when it reports failure the value is unchanged and [Tcl_SetObjLength] would have panicked. *)
Theorem AttemptSetObjLength_matches_SetObjLength (alloc_ok : Z -> bool) (o : StringObj)
    (len : Z) :
  shared o = false -> 0 <= len ->
  match Tcl_AttemptSetObjLength alloc_ok o len with
  | Ok (true, o') => Tcl_SetObjLength alloc_ok o len = Ok o'
  | Ok (false, o') => o' = o /\ Tcl_SetObjLength alloc_ok o len = Panic
  | Panic => False
  end.
Proof.
  intros Hs Hl. unfold Tcl_AttemptSetObjLength, Tcl_SetObjLength.
  replace (len <? 0) with false by lia. rewrite Hs.
  destruct ((len >? allocated o) && (has_bytes o || negb (hasUnicode o))) eqn:Eg.
  - unfold ckrealloc. destruct (alloc_ok (len + 1)); cbn [negb andb bind].
    + reflexivity.
    + split; reflexivity.
  - cbn [andb negb bind]. unfold set_length_tail.
    destruct (bytes o) eqn:Eb; [reflexivity|].
    destruct (STRING_UALLOC len >? uallocated o); cbn [andb negb bind]; [|reflexivity].
    unfold stringAttemptRealloc, stringRealloc, ckrealloc.
    destruct (_ >? INT_MAX - STRING_SIZE 0); cbn [negb bind]; [split; reflexivity|].
    destruct (alloc_ok _); cbn [negb bind]; [reflexivity|split; reflexivity].
Qed.

Lemma lor_mul_add (a y k m : Z) :
  m = 2 ^ k -> 0 <= k -> 0 <= y < m -> Z.lor (a * m) y = a * m + y.
Proof.
  intros -> Hk Hy.
  assert (H0 : Z.land (a * 2 ^ k) y = 0).
  { apply Z.bits_inj_0. intros i. rewrite Z.land_spec.
    destruct (Z.lt_ge_cases i 0) as [Hi|Hi]; [rewrite Z.testbit_neg_r by lia; reflexivity|].
    destruct (Z.lt_ge_cases i k) as [Hik|Hik].
    - rewrite <- Z.shiftl_mul_pow2 by lia. rewrite Z.shiftl_spec_low by lia. reflexivity.
    - rewrite <- (Z.mod_small y (2 ^ k)) by lia.
      rewrite Z.mod_pow2_bits_high by lia. apply andb_false_r. }
  rewrite <- Z.lxor_lor by exact H0. rewrite <- Z.add_nocarry_lxor by exact H0. reflexivity.
Qed.

Lemma mod_offset (a x m : Z) :
  0 < m -> a mod m = 0 -> 0 <= x < m -> (a + x) mod m = x.
Proof.
  intros Hm Ha Hx. rewrite Z.add_mod, Ha, Z.add_0_l, Z.mod_mod by lia.
  apply Z.mod_small. lia.
Qed.

Lemma trail_all : forallb (fun y => is_trail (128 + y)) (map Z.of_nat (seq 0 64)) = true.
Proof. reflexivity. Qed.

Lemma is_trail_range (y : Z) : 0 <= y < 64 -> is_trail (128 + y) = true.
Proof.
  intros H. pose proof trail_all as Hall. rewrite forallb_forall in Hall.
  replace y with (Z.of_nat (Z.to_nat y)) by lia. apply Hall.
  apply in_map. apply in_seq. lia.
Qed.

Lemma enc_ok_range (c : Z) : 0 <= c <= 65535 -> enc_ok c = true.
Proof.
  intros Hc. unfold enc_ok, Tcl_UniCharToUtf.
  assert (L63 : forall x, Z.land x 63 = x mod 64)
    by (intros x; change 63 with (Z.ones 6); rewrite Z.land_ones by lia; reflexivity).
  assert (L31 : forall x, Z.land x 31 = x mod 32)
    by (intros x; change 31 with (Z.ones 5); rewrite Z.land_ones by lia; reflexivity).
  assert (L15 : forall x, Z.land x 15 = x mod 16)
    by (intros x; change 15 with (Z.ones 4); rewrite Z.land_ones by lia; reflexivity).
  destruct (Z.eq_dec c 0) as [->|Hc0]; [reflexivity|].
  destruct ((0 <? c) && (c <? 128)) eqn:E1.
  - apply andb_true_iff in E1. rewrite !Z.ltb_lt in E1.
    unfold Tcl_UtfToUniChar, byte_at. cbn [nth enc_shape length fst snd].
    replace (c <? 192) with true by lia. cbn [fst snd].
    rewrite !andb_true_iff, !Z.ltb_lt, !Z.eqb_eq. lia.
  - rewrite (proj2 (Z.leb_le 0 c) ltac:(lia)). cbn [andb].
    destruct (c <=? 2047) eqn:E2.
    + apply Z.leb_le in E2.
      rewrite Z.shiftr_div_pow2, L63 by lia.
      change (2 ^ 6) with 64.
      assert (Hq : 2 <= c / 64 < 32) by (split; [apply Z.div_le_lower_bound | apply Z.div_lt_upper_bound]; lia).
      assert (Hm : 0 <= c mod 64 < 64) by (apply Z.mod_pos_bound; lia).
      replace (Z.lor 192 (c / 64)) with (192 + c / 64)
        by (change 192 with (6 * 32); rewrite (lor_mul_add _ _ 5 32) by (reflexivity || lia); reflexivity).
      replace (Z.lor 128 (c mod 64)) with (128 + c mod 64)
        by (change 128 with (2 * 64); rewrite (lor_mul_add _ _ 6 64) by (reflexivity || lia); reflexivity).
      unfold Tcl_UtfToUniChar, byte_at. cbn [nth enc_shape length fst snd].
      replace (192 + c / 64 <? 192) with false by lia.
      replace (192 + c / 64 <? 224) with true by lia.
      rewrite is_trail_range by lia. cbn [fst snd].
      rewrite L31, L63, Z.shiftl_mul_pow2 by lia. change (2 ^ 6) with 64.
      rewrite (mod_offset 192 (c / 64) 32) by (reflexivity || lia).
      rewrite (mod_offset 128 (c mod 64) 64) by (reflexivity || lia).
      rewrite (lor_mul_add _ _ 6 64) by (reflexivity || lia).
      rewrite !andb_true_iff, !Z.leb_le, !Z.ltb_lt, !Z.eqb_eq. cbn [length Z.of_nat].
      pose proof (Z.div_mod c 64). lia.
    + apply Z.leb_gt in E2. rewrite (proj2 (Z.leb_le c 65535) ltac:(lia)). cbn [andb].
      rewrite !Z.shiftr_div_pow2, !L63 by lia.
      change (2 ^ 6) with 64. change (2 ^ 12) with 4096.
      assert (Hq : 0 <= c / 4096 < 16) by (split; [apply Z.div_pos | apply Z.div_lt_upper_bound]; lia).
      assert (Hm1 : 0 <= (c / 64) mod 64 < 64) by (apply Z.mod_pos_bound; lia).
      assert (Hm : 0 <= c mod 64 < 64) by (apply Z.mod_pos_bound; lia).
      replace (Z.lor 224 (c / 4096)) with (224 + c / 4096)
        by (change 224 with (14 * 16); rewrite (lor_mul_add _ _ 4 16) by (reflexivity || lia); reflexivity).
      replace (Z.lor 128 ((c / 64) mod 64)) with (128 + (c / 64) mod 64)
        by (change 128 with (2 * 64); rewrite (lor_mul_add _ _ 6 64) by (reflexivity || lia); reflexivity).
      replace (Z.lor 128 (c mod 64)) with (128 + c mod 64)
        by (change 128 with (2 * 64); rewrite (lor_mul_add _ _ 6 64) by (reflexivity || lia); reflexivity).
      unfold Tcl_UtfToUniChar, byte_at. cbn [nth enc_shape length fst snd].
      replace (224 + c / 4096 <? 192) with false by lia.
      replace (224 + c / 4096 <? 224) with false by lia.
      replace (224 + c / 4096 <? 240) with true by lia.
      rewrite !is_trail_range by lia. cbn [andb fst snd].
      rewrite L15, !L63, !Z.shiftl_mul_pow2 by lia.
      change (2 ^ 6) with 64. change (2 ^ 12) with 4096.
      rewrite (mod_offset 224 (c / 4096) 16) by (reflexivity || lia).
      rewrite (mod_offset 128 ((c / 64) mod 64) 64) by (reflexivity || lia).
      rewrite (mod_offset 128 (c mod 64) 64) by (reflexivity || lia).
      rewrite (lor_mul_add _ _ 12 4096) by (reflexivity || lia).
      replace (c / 4096 * 4096 + (c / 64) mod 64 * 64)
        with ((c / 4096 * 64 + (c / 64) mod 64) * 64) by lia.
      rewrite (lor_mul_add _ _ 6 64) by (reflexivity || lia).
      rewrite !andb_true_iff, !Z.leb_le, !Z.ltb_lt, !Z.eqb_eq. cbn [length Z.of_nat].
      pose proof (Z.div_mod c 64). pose proof (Z.div_mod (c / 64) 64).
      rewrite Z.div_div in * by lia. change (64 * 64) with 4096 in *. lia.
Qed.

Lemma shape_app (e rest : list Z) :
  enc_shape e = true -> Tcl_UtfToUniChar (e ++ rest) = Tcl_UtfToUniChar e.
Proof.
  destruct e as [|x [|y [|z [|w e]]]]; cbn [enc_shape]; intro H; try discriminate;
    rewrite ?andb_true_iff, ?Z.ltb_lt, ?Z.leb_le in H;
    unfold Tcl_UtfToUniChar, byte_at; cbn [app nth].
  - replace (x <? 192) with true by lia. reflexivity.
  - replace (x <? 192) with false by lia. replace (x <? 224) with true by lia. reflexivity.
  - replace (x <? 192) with false by lia. replace (x <? 224) with false by lia.
    replace (x <? 240) with true by lia. reflexivity.
Qed.

Lemma shape_no_nul (e : list Z) : enc_shape e = true -> ~ In 0 e /\ e <> [].
Proof.
  destruct e as [|x [|y [|z [|w e]]]]; cbn [enc_shape]; intro H; try discriminate;
    rewrite ?andb_true_iff, ?Z.ltb_lt, ?Z.leb_le in H; cbn [In];
    split; try discriminate; lia.
Qed.

Lemma UniCharToUtf_decode (c : Z) (rest : list Z) :
  0 <= c <= 65535 ->
  Tcl_UtfToUniChar (Tcl_UniCharToUtf c ++ rest)
  = (Z.of_nat (length (Tcl_UniCharToUtf c)), c) /\ enc_shape (Tcl_UniCharToUtf c) = true.
Proof.
  intros H. pose proof (enc_ok_range c H) as E. unfold enc_ok in E.
  rewrite !andb_true_iff, !Z.eqb_eq in E. destruct E as [[Hs Hw] Hc].
  rewrite shape_app by exact Hs. split; [|exact Hs].
  destruct (Tcl_UtfToUniChar (Tcl_UniCharToUtf c)). cbn in *. congruence.
Qed.

Lemma TclUtfToUniChar_eq (s : list Z) : TclUtfToUniChar s = Tcl_UtfToUniChar s.
Proof.
  unfold TclUtfToUniChar, Tcl_UtfToUniChar. cbv zeta.
  destruct (byte_at s 0 <? 192); reflexivity.
Qed.

Lemma utf_decode_length (k : nat) (s : list Z) : length (utf_decode k s) = k.
Proof.
  revert s. induction k as [|k IH]; intros s; cbn [utf_decode]; [reflexivity|].
  destruct (TclUtfToUniChar s). cbn [length]. now rewrite IH.
Qed.

Lemma utf_encode_cons (c : Z) (u : list Z) :
  utf_encode (c :: u) = Tcl_UniCharToUtf c ++ utf_encode u.
Proof. reflexivity. Qed.

Lemma NumUtfChars_encode (u rest : list Z) (f : nat) :
  Forall (fun c => 0 <= c <= 65535) u -> (length (utf_encode u) <= f)%nat ->
  NumUtfChars_loop f (utf_encode u ++ rest) (Z.of_nat (length (utf_encode u)))
  = Z.of_nat (length u).
Proof.
  revert f. induction u as [|c u IH]; intros f Hu Hf.
  - destruct f; reflexivity.
  - inversion Hu as [|? ? Hc Hu']; subst.
    destruct (UniCharToUtf_decode c (utf_encode u ++ rest) Hc) as [Hd Hs].
    destruct (shape_no_nul _ Hs) as [_ Hne].
    rewrite utf_encode_cons in *. rewrite length_app in *.
    assert (Hl : (1 <= length (Tcl_UniCharToUtf c))%nat)
      by (destruct (Tcl_UniCharToUtf c); [congruence|cbn; lia]).
    destruct f as [|f]; [lia|].
    rewrite NumUtfChars_loop_step by lia. rewrite <- app_assoc, Hd. cbn [fst].
    rewrite Nat2Z.id, skipn_app, skipn_all, Nat.sub_diag. cbn [skipn app].
    replace (Z.of_nat (length (Tcl_UniCharToUtf c) + length (utf_encode u))
             - Z.of_nat (length (Tcl_UniCharToUtf c)))
      with (Z.of_nat (length (utf_encode u))) by lia.
    rewrite IH by (assumption || lia). cbn [length]. lia.
Qed.

Lemma decode_encode (u rest : list Z) :
  Forall (fun c => 0 <= c <= 65535) u ->
  utf_decode (length u) (utf_encode u ++ rest) = u.
Proof.
  induction u as [|c u IH]; intros Hu; [reflexivity|].
  inversion Hu as [|? ? Hc Hu']; subst.
  destruct (UniCharToUtf_decode c (utf_encode u ++ rest) Hc) as [Hd _].
  cbn [length utf_decode]. rewrite TclUtfToUniChar_eq, utf_encode_cons, <- app_assoc, Hd.
  rewrite Nat2Z.id, skipn_app, skipn_all, Nat.sub_diag. cbn [skipn app].
  now rewrite IH.
Qed.

Lemma encode_no_nul (u : list Z) :
  Forall (fun c => 0 <= c <= 65535) u -> ~ In 0 (utf_encode u).
Proof.
  induction u as [|c u IH]; intros Hu; [intros []|].
  inversion Hu as [|? ? Hc Hu']; subst.
  destruct (UniCharToUtf_decode c [] Hc) as [_ Hs].
  destruct (shape_no_nul _ Hs) as [Hn _].
  rewrite utf_encode_cons. intros Hin. apply in_app_or in Hin as [Hin|Hin]; [exact (Hn Hin)|].
  exact (IH Hu' Hin).
Qed.

Lemma strlen_no_nul (s : list Z) : ~ In 0 s -> strlen s = Z.of_nat (length s).
Proof.
  induction s as [|b t IH]; intros H; [reflexivity|].
  cbn [strlen length]. replace (b =? 0) with false
    by (symmetry; apply Z.eqb_neq; intros ->; apply H; left; reflexivity).
  rewrite IH by (intros Hin; apply H; right; exact Hin). lia.
Qed.

Lemma utf_chars_encode (u : list Z) :
  Forall (fun c => 0 <= c <= 65535) u ->
  utf_chars (utf_encode u) = u /\
  Tcl_NumUtfChars (utf_encode u) (Z.of_nat (length (utf_encode u))) = Z.of_nat (length u).
Proof.
  intros Hu. unfold utf_chars, Tcl_NumUtfChars. rewrite Nat2Z.id.
  pose proof (NumUtfChars_encode u [] (length (utf_encode u)) Hu (le_n _)) as Hn.
  rewrite app_nil_r in Hn. rewrite Hn, Nat2Z.id. split; [|reflexivity].
  pose proof (decode_encode u [] Hu) as Hd. rewrite app_nil_r in Hd. exact Hd.
Qed.


Lemma GetUnicodeFromObj_fresh_eq (b : list Z) :
  Tcl_GetUnicodeFromObj (fresh_string b)
  = (utf_chars b, Tcl_NumUtfChars b (Z.of_nat (length b)), FillUnicodeRep (fresh_string b)).
Proof.
  unfold Tcl_GetUnicodeFromObj.
  replace ((numChars (fresh_string b) =? -1) || negb (hasUnicode (fresh_string b)))
    with true by reflexivity.
  destruct (FillUnicodeRep_fields (fresh_string b) eq_refl eq_refl) as [H1 [H2 _]].
  change (obj_bytes (fresh_string b)) with b in *.
  change (objLength (fresh_string b)) with (Z.of_nat (length b)) in *.
  rewrite H1, H2. unfold utf_chars.
  rewrite firstn_all2 by (rewrite utf_decode_length; lia). reflexivity.
Qed.

Lemma fresh_count (b : list Z) :
  fst (Tcl_GetCharLength (fresh_string b)) = Tcl_NumUtfChars b (Z.of_nat (length b)).
Proof.
  unfold fresh_string. rewrite GetCharLength_fresh. cbv zeta.
  set (n := Tcl_NumUtfChars b (Z.of_nat (length b))).
  assert (0 <= n) by apply NumUtfChars_loop_nonneg.
  destruct (n =? Z.of_nat (length b)); [reflexivity|].
  cbn [fst]. apply FillUnicodeRep_counts; reflexivity || exact H.
Qed.

(** Asking a fresh string for its code units gives the characters the decoder reads from its bytes, as many as its character count (at most its byte length); the string rep is kept and the count is cached. *)
Theorem GetUnicodeFromObj_decodes_string (b : list Z) :
  let '(u, n, o') := Tcl_GetUnicodeFromObj (fresh_string b) in
  u = utf_chars b /\ n = Tcl_NumUtfChars b (Z.of_nat (length b))
  /\ Z.of_nat (length u) = n /\ n <= Z.of_nat (length b)
  /\ obj_string o' = b /\ fst (Tcl_GetCharLength o') = n.
Proof.
  rewrite GetUnicodeFromObj_fresh_eq.
  destruct (FillUnicodeRep_fields (fresh_string b) eq_refl eq_refl)
    as [H1 [_ [H3 _]]].
  change (obj_bytes (fresh_string b)) with b in *.
  change (objLength (fresh_string b)) with (Z.of_nat (length b)) in *.
  pose proof (NumUtfChars_loop_nonneg (Z.to_nat (Z.of_nat (length b))) b
                (Z.of_nat (length b))) as Hnn.
  destruct (NumUtfChars_loop_le (length b) b (le_n _)) as [Hle _].
  unfold Tcl_NumUtfChars in *. rewrite Nat2Z.id in *.
  split; [reflexivity|]. split; [reflexivity|].
  split; [unfold utf_chars, Tcl_NumUtfChars; rewrite Nat2Z.id, utf_decode_length; lia|].
  split; [exact Hle|]. split.
  - unfold obj_string, TclGetStringFromObj. rewrite H3. reflexivity.
  - unfold Tcl_GetCharLength. rewrite H1.
    replace (NumUtfChars_loop (length b) b (Z.of_nat (length b)) =? -1) with false by lia.
    reflexivity.
Qed.

(** Code units of the Basic Multilingual Plane survive a round trip: set as code units, read back as bytes (their UTF-8 encoding), made into a new string and read as code units again, they come back unchanged, with their count. *)
Theorem unicode_string_round_trip (alloc_ok : Z -> bool) (o o1 o2 : StringObj) (u : list Z) :
  Forall (fun c => 0 <= c <= 65535) u ->
  Tcl_SetUnicodeObj alloc_ok o u (Z.of_nat (length u)) = Ok o1 ->
  Tcl_NewStringObj alloc_ok (obj_string o1) (-1) = Ok o2 ->
  obj_string o1 = utf_encode u /\ obj_string o2 = utf_encode u
  /\ fst (Tcl_GetUnicodeFromObj o2) = (u, Z.of_nat (length u)).
Proof.
  intros Hu H1 H2.
  unfold Tcl_SetUnicodeObj, SetUnicodeObj in H1.
  destruct (shared o); [discriminate|].
  assert (E0 : (Z.of_nat (length u) <? 0) = false) by (apply Z.ltb_ge; lia). rewrite E0 in H1.
  destruct (stringAlloc alloc_ok _); cbn [bind] in H1; [|discriminate].
  injection H1 as <-.
  assert (Hs1 : obj_string (mkObj false None 0 (Z.of_nat (length u))
                 (Z.of_nat (length u) >? 0) (STRING_UALLOC (Z.of_nat (length u)))
                 (firstn (Z.to_nat (Z.of_nat (length u))) u)) = utf_encode u).
  { unfold obj_string, TclGetStringFromObj, UpdateStringOfString, obj_bytes.
    cbn [bytes numChars unicode fst].
    rewrite Nat2Z.id, firstn_firstn, Nat.min_id, firstn_all. reflexivity. }
  rewrite Hs1 in H2 |- *. split; [reflexivity|].
  unfold Tcl_NewStringObj in H2. cbn [Z.ltb Z.compare] in H2.
  rewrite (strlen_no_nul _ (encode_no_nul u Hu)) in H2.
  unfold TclInitStringRep in H2.
  assert (Ho2 : o2 = fresh_string (utf_encode u)).
  { destruct (Z.of_nat (length (utf_encode u)) =? 0) eqn:E.
    - cbn [bind] in H2. injection H2 as <-. apply Z.eqb_eq in E.
      destruct (utf_encode u); [reflexivity|cbn in E; lia].
    - destruct (ckrealloc alloc_ok _); cbn [bind] in H2; [|discriminate].
      injection H2 as <-. rewrite Nat2Z.id, firstn_all. reflexivity. }
  subst o2. split; [reflexivity|].
  rewrite GetUnicodeFromObj_fresh_eq. cbn [fst].
  destruct (utf_chars_encode u Hu) as [-> ->]. reflexivity.
Qed.


Lemma GetCharLength_known (o : StringObj) :
  numChars o <> -1 -> Tcl_GetCharLength o = (numChars o, o).
Proof. intros H. unfold Tcl_GetCharLength. replace (numChars o =? -1) with false by lia. reflexivity. Qed.

Lemma count_single_unit (b : list Z) :
  let n := Tcl_NumUtfChars b (Z.of_nat (length b)) in
  0 <= n <= Z.of_nat (length b)
  /\ (n = Z.of_nat (length b) <-> all_single_unit b = true)
  /\ (b <> [] -> 1 <= n).
Proof.
  cbv zeta. unfold Tcl_NumUtfChars, all_single_unit. rewrite Nat2Z.id.
  destruct (NumUtfChars_loop_le (length b) b (le_n _)) as [H1 [H2 H3]].
  pose proof (NumUtfChars_loop_nonneg (length b) b (Z.of_nat (length b))).
  split; [lia|]. split; [exact H2|].
  intros Hb. apply H3. destruct b; [congruence|cbn; lia].
Qed.

(** When reversing an unshared fresh string succeeds, it works in place and keeps its character count: a string of single-byte characters has its bytes reversed, any other its code units; when reversing the result again succeeds, it restores the original. *)
Theorem reverse_unshared_in_place (alloc_ok : Z -> bool) (b : list Z) :
  let n := Tcl_NumUtfChars b (Z.of_nat (length b)) in
  match TclStringObjReverse alloc_ok (fresh_string b) with
  | Ok (same, r, o') =>
      same = true /\ r = o' /\ fst (Tcl_GetCharLength r) = n
      /\ (if all_single_unit b then obj_string r = rev b
          else fst (fst (Tcl_GetUnicodeFromObj r)) = rev (utf_chars b))
      /\ match TclStringObjReverse alloc_ok r with
         | Ok (same2, r2, _) =>
             same2 = true
             /\ (if all_single_unit b then obj_string r2 = b
                 else fst (fst (Tcl_GetUnicodeFromObj r2)) = utf_chars b)
         | Panic => True
         end
  | Panic => True
  end.
Proof.
  cbv zeta. destruct (count_single_unit b) as [Hn [Hs Hne]]. cbv zeta in Hn, Hs, Hne.
  set (n := Tcl_NumUtfChars b (Z.of_nat (length b))) in *.
  unfold TclStringObjReverse at 1. unfold fresh_string at 1.
  rewrite GetCharLength_fresh. fold n.
  destruct (n =? Z.of_nat (length b)) eqn:En.
  - (* every character one byte *)
    apply Z.eqb_eq in En. assert (Hsu : all_single_unit b = true) by (apply Hs; exact En).
    rewrite Hsu. set (o1 := set_chars _ n false).
    assert (Hk : Tcl_GetCharLength o1 = (n, o1))
      by (apply GetCharLength_known; unfold o1; cbn [numChars set_chars]; lia).
    destruct (n <=? 1) eqn:E1.
    + assert (Hr : rev b = b).
      { assert (Hl : (length b <= 1)%nat) by lia. clear -Hl.
        destruct b as [|x [|y t]]; [reflexivity|reflexivity|cbn in Hl; lia]. }
      split; [reflexivity|]. split; [reflexivity|]. rewrite Hk. split; [reflexivity|].
      split; [unfold obj_string; cbn; symmetry; exact Hr|].
      unfold TclStringObjReverse. rewrite Hk, E1. split; reflexivity.
    + cbn [hasUnicode o1 set_chars]. unfold TclGetStringFromObj. cbn [bytes o1 set_chars shared].
      rewrite En, Nat2Z.id, firstn_all, skipn_all, app_nil_r.
      set (o2 := set_bytes o1 (Some (rev b))).
      assert (Hk2 : Tcl_GetCharLength o2 = (n, o2))
        by (apply GetCharLength_known; unfold o2, o1; cbn [numChars set_chars set_bytes]; lia).
      split; [reflexivity|]. split; [reflexivity|]. rewrite Hk2. split; [cbn [fst]; lia|].
      split; [reflexivity|].
      unfold TclStringObjReverse. rewrite Hk2, E1. cbn [hasUnicode o2 o1 set_bytes set_chars].
      unfold TclGetStringFromObj. cbn [bytes shared o2 o1 set_bytes set_chars].
      rewrite En, <- (length_rev b), Nat2Z.id, firstn_all, skipn_all, app_nil_r, rev_involutive.
      split; reflexivity.
  - (* some character of several bytes *)
    assert (Hsu : all_single_unit b = false)
      by (apply not_true_is_false; intros E; apply Hs in E; lia).
    rewrite Hsu.
    assert (Hb0 : b <> []) by (intros ->; cbn in En; discriminate).
    specialize (Hne Hb0).
    set (o1 := set_chars _ n false).
    destruct (FillUnicodeRep_known o1 eq_refl ltac:(unfold o1; cbn [numChars set_chars]; lia)) as [F1 [F2 [F3 [F4 F5]]]].
    cbn [numChars o1 set_chars] in F1, F2, F4.
    change (obj_bytes o1) with b in F2.
    cbn [shared o1 set_chars] in F5.
    set (o2 := FillUnicodeRep o1) in *. cbn [fst snd]. rewrite F1.
    assert (Hdec : length (utf_decode (Z.to_nat n) b) = Z.to_nat n) by apply utf_decode_length.
    assert (Hch : utf_chars b = utf_decode (Z.to_nat n) b) by reflexivity.
    rewrite F4. replace (n >? 0) with true by lia.
    destruct (n <=? 1) eqn:E1.
    + assert (Hk : Tcl_GetCharLength o2 = (n, o2))
        by (rewrite GetCharLength_known by (rewrite F1; lia); rewrite F1; reflexivity).
      assert (Hg : fst (fst (Tcl_GetUnicodeFromObj o2)) = utf_chars b).
      { unfold Tcl_GetUnicodeFromObj. rewrite F1, F4. replace (n =? -1) with false by lia.
        replace (n >? 0) with true by lia. cbn [orb negb fst]. rewrite F2, Hch.
        apply firstn_all2. lia. }
      split; [reflexivity|]. split; [reflexivity|]. rewrite Hk. split; [reflexivity|].
      split.
      * rewrite Hg, Hch. assert (Hl : (length (utf_decode (Z.to_nat n) b) <= 1)%nat) by lia.
        clear -Hl. destruct (utf_decode (Z.to_nat n) b) as [|x [|y t]];
          [reflexivity|reflexivity|cbn in Hl; lia].
      * unfold TclStringObjReverse. rewrite Hk, E1. split; [reflexivity|exact Hg].
    + rewrite F5. rewrite F2, firstn_all2, skipn_all2, app_nil_r by lia.
      set (o3 := set_allocated _ 0).
      assert (Hu3 : unicode o3 = rev (utf_decode (Z.to_nat n) b)) by reflexivity.
      assert (Hh3 : hasUnicode o3 = true)
        by (unfold o3; cbn [hasUnicode set_allocated invalidate_string_rep set_bytes set_unicode]; rewrite F4; lia).
      assert (Hn3 : numChars o3 = n)
        by (unfold o3; cbn [numChars set_allocated invalidate_string_rep set_bytes set_unicode]; exact F1).
      assert (Hk : Tcl_GetCharLength o3 = (n, o3))
        by (rewrite GetCharLength_known by (rewrite Hn3; lia); rewrite Hn3; reflexivity).
      split; [reflexivity|]. split; [reflexivity|]. rewrite Hk. split; [reflexivity|].
      split.
      * unfold Tcl_GetUnicodeFromObj. rewrite Hn3, Hh3. replace (n =? -1) with false by lia.
        cbn [orb negb fst]. rewrite Hu3, Hch. apply firstn_all2. rewrite length_rev. lia.
      * unfold TclStringObjReverse. rewrite Hk, E1, Hh3.
        replace (shared o3) with false
          by (unfold o3; cbn [shared set_allocated invalidate_string_rep set_bytes set_unicode]; rewrite F5; reflexivity).
        rewrite Hu3, firstn_all2, skipn_all2, app_nil_r, rev_involutive
          by (rewrite length_rev; lia).
        split; [reflexivity|].
        unfold Tcl_GetUnicodeFromObj. cbn [numChars hasUnicode unicode set_allocated
          invalidate_string_rep set_bytes set_unicode]. rewrite Hn3, Hh3.
        replace (n =? -1) with false by lia. cbn [orb negb fst]. rewrite Hch.
        unfold set_allocated, invalidate_string_rep, set_bytes, set_unicode. cbn [numChars unicode]. rewrite Hn3. apply firstn_all2. lia.
Qed.

Lemma strings_length_nonneg (args : list (list Z)) : 0 <= strings_length args.
Proof.
  induction args as [|s t IH]; cbn [strings_length fold_right]; [lia|].
  pose proof (strlen_nonneg s). unfold strings_length in IH. lia.
Qed.

Lemma fold_wrap_sum (args : list (list Z)) (a : Z) :
  0 <= a -> a + strings_length args <= INT_MAX ->
  fold_left (fun acc s => wrap32 (acc + strlen s)) args a = a + strings_length args.
Proof.
  revert a. induction args as [|s t IH]; intros a Ha Hs; cbn [fold_left]; [cbn; lia|].
  cbn [strings_length fold_right] in Hs. fold (strings_length t) in Hs.
  pose proof (strlen_nonneg s). pose proof (strings_length_nonneg t).
  rewrite wrap32_small by lia. rewrite IH by lia.
  cbn [strings_length fold_right]. fold (strings_length t). lia.
Qed.

Lemma strings_zero (args : list (list Z)) :
  strings_length args = 0 -> concat (map (fun s => firstn (Z.to_nat (strlen s)) s) args) = [].
Proof.
  induction args as [|s t IH]; intros H; [reflexivity|].
  cbn [strings_length fold_right] in H. fold (strings_length t) in H.
  pose proof (strlen_nonneg s). pose proof (strings_length_nonneg t).
  cbn [map concat]. replace (strlen s) with 0 by lia. cbn. apply IH. lia.
Qed.

Lemma SetObjLength_neg (alloc_ok : Z -> bool) (o : StringObj) (n : Z) :
  n < 0 -> Tcl_SetObjLength alloc_ok o n = Panic.
Proof. intros H. unfold Tcl_SetObjLength. replace (n <? 0) with true by lia. reflexivity. Qed.

(** With enough headroom below INT_MAX, [Tcl_AppendStringsToObj] appends to the bytes of the value each argument up to its first NUL byte, in order. *)
Theorem AppendStringsToObj_appends (alloc_ok : Z -> bool) (o o' : StringObj) (b : list Z)
    (args : list (list Z)) :
  bytes o = Some b -> 2 * (Z.of_nat (length b) + strings_length args) <= INT_MAX ->
  Tcl_AppendStringsToObj alloc_ok o args = Ok o' ->
  bytes o' = Some (b ++ concat (map (fun s => firstn (Z.to_nat (strlen s)) s) args)).
Proof.
  intros Hb Hlen H. pose proof (strings_length_nonneg args) as Ht.
  unfold Tcl_AppendStringsToObj in H.
  destruct (shared o); [discriminate|].
  destruct (negb (args_space_ok alloc_ok (length args))); [discriminate|].
  rewrite fold_wrap_sum in H by (unfold INT_MAX in *; lia). rewrite Z.add_0_l in H.
  destruct (strings_length args =? 0) eqn:E0.
  { injection H as <-. apply Z.eqb_eq in E0. rewrite strings_zero, app_nil_r by exact E0.
    exact Hb. }
  assert (HL : objLength o = Z.of_nat (length b)) by (unfold objLength, obj_bytes; now rewrite Hb).
  rewrite HL in H. set (old := Z.of_nat (length b)) in *. set (t := strings_length args) in *.
  rewrite (wrap32_small (old + t)) in H by (unfold INT_MAX in *; lia).
  set (cat := concat _) in *.
  assert (Hfin : forall o1 b1, bytes o1 = Some b1 -> firstn (length b) b1 = b ->
            (match bytes o1 with
             | Some b => Ok (set_bytes o1 (Some (firstn (Z.to_nat old) b ++ cat)))
             | None => Panic end) = Ok o' -> bytes o' = Some (b ++ cat)).
  { intros o1 b1 H1 Hp Hm. rewrite H1 in Hm. injection Hm as <-. cbn.
    unfold old. rewrite Nat2Z.id, Hp. reflexivity. }
  destruct (old + t >? allocated o).
  - destruct (old =? 0) eqn:Eo.
    + destruct (Tcl_SetObjLength alloc_ok o t) as [o1|] eqn:Es; [|discriminate].
      cbn [bind] in H. destruct (SetObjLength_bytes alloc_ok o o1 b t Hb Es) as [Hs _].
      apply (Hfin o1 _ Hs); [|exact H].
      apply Z.eqb_eq in Eo. unfold old in Eo. destruct b; [reflexivity|cbn in Eo; lia].
    + rewrite (wrap32_small (2 * (old + t))) in H by (unfold INT_MAX in *; lia).
      destruct (Tcl_AttemptSetObjLength alloc_ok o (2 * (old + t))) as [[r o1]|] eqn:Ea;
        [|discriminate].
      cbn [bind fst snd] in H.
      destruct (AttemptSetObjLength_bytes alloc_ok o o1 b _ r Hb Ea) as [[-> [_ Hr]]|[-> ->]].
      * apply (Hfin o1 _ Hr); [|exact H]. apply resize_prefix. lia.
      * rewrite (wrap32_small (2 * t)) in H by (unfold INT_MAX in *; lia).
        rewrite (wrap32_small (old + 2 * t)) in H by (unfold INT_MAX in *; lia).
        set (m := wrap32 (old + 2 * t + TCL_GROWTH_MIN_ALLOC)) in H.
        destruct (Tcl_SetObjLength alloc_ok o m) as [o1|] eqn:Es; [|discriminate].
        cbn [bind] in H. destruct (SetObjLength_bytes alloc_ok o o1 b m Hb Es) as [Hs _].
        apply (Hfin o1 _ Hs); [|exact H]. apply resize_prefix.
        unfold m, TCL_GROWTH_MIN_ALLOC in *.
        destruct (old + 2 * t + 1024 <=? INT_MAX) eqn:Em.
        -- rewrite wrap32_small by (unfold INT_MAX in *; lia). lia.
        -- pose proof (wrap32_over (old + 2 * t + 1024) ltac:(unfold INT_MAX in *; lia)).
           rewrite SetObjLength_neg in Es by lia. discriminate.
  - cbn [bind] in H. apply (Hfin o b Hb); [apply firstn_all|exact H].
Qed.

Lemma strlen_le (s : list Z) : strlen s <= Z.of_nat (length s).
Proof. induction s as [|x t IH]; cbn [strlen length]; [lia|destruct (x =? 0); lia]. Qed.

Lemma strings_concat_length (args : list (list Z)) :
  Z.of_nat (length (concat (map (fun s => firstn (Z.to_nat (strlen s)) s) args)))
  = strings_length args.
Proof.
  induction args as [|s t IH]; [reflexivity|].
  cbn [map concat strings_length fold_right]. fold (strings_length t).
  rewrite length_app, length_firstn. pose proof (strlen_le s). pose proof (strlen_nonneg s).
  lia.
Qed.

(** When the arguments fit in the allocated buffer, [Tcl_AppendStringsToObj] grows the byte length but leaves a known character count and the unicode rep as they were, so the count it reports afterwards is the stale one from before the append. *)
Theorem AppendStringsToObj_stale_count (alloc_ok : Z -> bool) (o o' : StringObj) (b : list Z)
    (args : list (list Z)) :
  bytes o = Some b -> numChars o <> -1 ->
  Z.of_nat (length b) + strings_length args <= allocated o <= INT_MAX ->
  Tcl_AppendStringsToObj alloc_ok o args = Ok o' ->
  objLength o' = Z.of_nat (length b) + strings_length args
  /\ fst (Tcl_GetCharLength o') = numChars o /\ hasUnicode o' = hasUnicode o
  /\ unicode o' = unicode o.
Proof.
  intros Hb Hn Hal H. pose proof (strings_length_nonneg args) as Ht.
  unfold Tcl_AppendStringsToObj in H.
  destruct (shared o); [discriminate|].
  destruct (negb (args_space_ok alloc_ok (length args))); [discriminate|].
  rewrite fold_wrap_sum in H by (unfold INT_MAX in *; lia). rewrite Z.add_0_l in H.
  destruct (strings_length args =? 0) eqn:E0.
  { injection H as <-. apply Z.eqb_eq in E0. rewrite E0.
    unfold objLength, obj_bytes. rewrite Hb, GetCharLength_known by exact Hn.
    repeat split; lia. }
  assert (HL : objLength o = Z.of_nat (length b)) by (unfold objLength, obj_bytes; now rewrite Hb).
  rewrite HL in H.
  rewrite wrap32_small in H by (unfold INT_MAX in *; lia).
  replace (Z.of_nat (length b) + strings_length args >? allocated o) with false in H by lia.
  cbn [bind] in H. rewrite Hb in H. injection H as <-.
  unfold objLength, obj_bytes, set_bytes. cbn [bytes numChars hasUnicode unicode].
  rewrite GetCharLength_known by exact Hn. cbn [numChars fst].
  rewrite length_app, Nat2Z.id, firstn_all.
  split; [pose proof (strings_concat_length args); lia|].
  split; [reflexivity|split; reflexivity].
Qed.

Lemma strlen_split (s : list Z) :
  exists rest, s = firstn (Z.to_nat (strlen s)) s ++ rest
  /\ ~ In 0 (firstn (Z.to_nat (strlen s)) s)
  /\ (rest = [] \/ exists t, rest = 0 :: t).
Proof.
  induction s as [|x t IH]; [exists []; cbn; auto|].
  cbn [strlen]. destruct (x =? 0) eqn:E.
  - apply Z.eqb_eq in E. subst x. exists (0 :: t). cbn. split; [reflexivity|].
    split; [auto|right; exists t; reflexivity].
  - destruct IH as [rest [H1 [H2 H3]]]. pose proof (strlen_nonneg t).
    replace (Z.to_nat (1 + strlen t)) with (S (Z.to_nat (strlen t))) by lia.
    exists rest. cbn [firstn app]. split; [f_equal; exact H1|]. split; [|exact H3].
    intros [Hx|Hx]; [apply Z.eqb_neq in E; congruence|exact (H2 Hx)].
Qed.

(** A negative length makes [Tcl_NewStringObj], [Tcl_SetStringObj] and [Tcl_SetUnicodeObj] read their source up to (not including) its first 0 element, or to its end when there is none. *)
Theorem negative_length_reads_to_NUL (alloc_ok : Z -> bool) (src : list Z) (len : Z) :
  len < 0 ->
  let upto_NUL p := exists rest, src = p ++ rest /\ ~ In 0 p
                                 /\ (rest = [] \/ exists t, rest = 0 :: t) in
  (forall o', Tcl_NewStringObj alloc_ok src len = Ok o' -> upto_NUL (obj_string o'))
  /\ (forall o o', Tcl_SetStringObj alloc_ok o src len = Ok o' -> upto_NUL (obj_string o'))
  /\ (forall o o', Tcl_SetUnicodeObj alloc_ok o src len = Ok o' ->
        upto_NUL (fst (fst (Tcl_GetUnicodeFromObj o')))
        /\ numChars o' = Z.of_nat (length (fst (fst (Tcl_GetUnicodeFromObj o'))))).
Proof.
  intros Hl. cbv zeta. assert (El : (len <? 0) = true) by lia.
  destruct (strlen_split src) as [rest [H1 [H2 H3]]].
  pose proof (strlen_nonneg src) as Hnn. pose proof (strlen_le src) as Hle.
  assert (Hinit : forall b, TclInitStringRep alloc_ok src (strlen src) = Ok b ->
                            b = firstn (Z.to_nat (strlen src)) src).
  { intros b Hb. unfold TclInitStringRep in Hb. destruct (strlen src =? 0) eqn:E.
    - injection Hb as <-. apply Z.eqb_eq in E. rewrite E. reflexivity.
    - destruct (ckrealloc alloc_ok _); [|discriminate]. cbn [bind] in Hb.
      injection Hb as <-. reflexivity. }
  assert (Hstr : forall o', (exists b, TclInitStringRep alloc_ok src (strlen src) = Ok b
                                       /\ o' = fresh_string b) ->
                 exists rest, src = obj_string o' ++ rest /\ ~ In 0 (obj_string o')
                   /\ (rest = [] \/ exists t, rest = 0 :: t)).
  { intros o' [b [Hb ->]]. apply Hinit in Hb. subst b. exists rest. auto. }
  split; [|split].
  - intros o' H. apply Hstr. unfold Tcl_NewStringObj in H. rewrite El in H.
    destruct (TclInitStringRep alloc_ok src (strlen src)) as [b|]; [|discriminate].
    cbn [bind] in H. injection H as <-. eauto.
  - intros o o' H. apply Hstr. unfold Tcl_SetStringObj in H. rewrite El in H.
    destruct (shared o); [discriminate|].
    destruct (TclInitStringRep alloc_ok src (strlen src)) as [b|]; [|discriminate].
    cbn [bind] in H. injection H as <-. eauto.
  - intros o o' H. unfold Tcl_SetUnicodeObj, SetUnicodeObj in H. rewrite El in H.
    destruct (shared o); [discriminate|].
    destruct (stringAlloc alloc_ok _); [|discriminate]. cbn [bind] in H. injection H as <-.
    set (k := strlen src) in *.
    assert (Hu : fst (fst (Tcl_GetUnicodeFromObj
               (mkObj false None 0 k (k >? 0) (STRING_UALLOC k) (firstn (Z.to_nat k) src))))
             = firstn (Z.to_nat k) src).
    { unfold Tcl_GetUnicodeFromObj. cbn [numChars hasUnicode].
      replace (k =? -1) with false by lia.
      destruct (k >? 0) eqn:Ek; cbn [orb negb fst numChars unicode hasUnicode].
      + rewrite firstn_firstn, Nat.min_id. reflexivity.
      + assert (k = 0) by lia. rewrite H. reflexivity. }
    rewrite Hu. split; [exists rest; auto|].
    cbn [numChars]. rewrite length_firstn. lia.
Qed.

Lemma utf_encode_app (a c : list Z) : utf_encode (a ++ c) = utf_encode a ++ utf_encode c.
Proof. unfold utf_encode. apply flat_map_app. Qed.

Lemma AppendUnicodeToObj_utf_path (alloc_ok : Z -> bool) (o o' : StringObj) (u b : list Z)
    (n : Z) :
  0 < n <= Z.of_nat (length u) ->
  Tcl_AppendUnicodeToObj alloc_ok o u n = Ok o' ->
  hasUnicode o = false -> bytes o = Some b ->
  bytes o' = Some (b ++ utf_encode (firstn (Z.to_nat n) u)) /\ hasUnicode o' = false
  /\ numChars o' = (if numChars o =? -1 then -1 else numChars o + n).
Proof.
  intros Hn H Hu Hb. unfold Tcl_AppendUnicodeToObj in H.
  destruct (shared o); [discriminate|]. replace (n =? 0) with false in H by lia.
  rewrite Hu in H. unfold AppendUnicodeToUtfRep, ExtendStringRepWithUnicode in H.
  replace (n <? 0) with false in H by lia. replace (n =? 0) with false in H by lia.
  destruct (n >? INT_MAX); [discriminate|].
  unfold obj_bytes in H. rewrite Hb in H.
  destruct (_ >? INT_MAX); [discriminate|].
  destruct (_ >? allocated o).
  - destruct (ckrealloc alloc_ok _); [|discriminate]. cbn [bind] in H.
    injection H as <-. cbn. auto.
  - cbn [bind] in H. injection H as <-. cbn. auto.
Qed.

(** [Tcl_AppendUnicodeToObj] of n code units onto a value with only a byte rep appends their UTF-8 encoding to the bytes and adds n to a known count; onto a value with a unicode rep it appends the code units and drops the byte rep, which regenerates as the encoding of the whole. *)
Theorem AppendUnicodeToObj_appends (alloc_ok : Z -> bool) (o o' : StringObj) (u : list Z)
    (n : Z) :
  0 < n <= Z.of_nat (length u) ->
  Tcl_AppendUnicodeToObj alloc_ok o u n = Ok o' ->
  (hasUnicode o = false -> forall b, bytes o = Some b ->
     bytes o' = Some (b ++ utf_encode (firstn (Z.to_nat n) u)) /\ hasUnicode o' = false
     /\ numChars o' = (if numChars o =? -1 then -1 else numChars o + n))
  /\ (hasUnicode o = true -> 0 <= numChars o <= Z.of_nat (length (unicode o)) ->
      numChars o + n <= INT_MAX ->
      bytes o' = None /\ numChars o' = numChars o + n
      /\ fst (fst (Tcl_GetUnicodeFromObj o'))
         = firstn (Z.to_nat (numChars o)) (unicode o) ++ firstn (Z.to_nat n) u
      /\ obj_string o' = utf_encode (firstn (Z.to_nat (numChars o)) (unicode o))
                         ++ utf_encode (firstn (Z.to_nat n) u)).
Proof.
  intros Hn H. split.
  - intros Hu b Hb. exact (AppendUnicodeToObj_utf_path alloc_ok o o' u b n Hn H Hu Hb).
  - intros Hu Hc Hs. unfold Tcl_AppendUnicodeToObj in H.
    destruct (shared o); [discriminate|]. replace (n =? 0) with false in H by lia.
    rewrite Hu in H. unfold AppendUnicodeToUnicodeRep in H.
    replace (n =? 0) with false in H by lia.
    rewrite (wrap32_small (numChars o + n)) in H by lia.
    rewrite (size_t_of_small (numChars o + n)) in H by (unfold INT_MAX in *; lia).
    rewrite (wrap32_small (numChars o + n)) in H by lia.
    match type of H with bind ?x _ = _ => destruct x as [ua|] end; [|discriminate].
    cbn [bind] in H. injection H as <-.
    assert (Hl : length (firstn (Z.to_nat (numChars o)) (unicode o) ++ firstn (Z.to_nat n) u)
                 = Z.to_nat (numChars o + n)) by (rewrite length_app, !length_firstn; lia).
    unfold invalidate_string_rep, set_bytes. cbn [bytes numChars].
    split; [reflexivity|]. split; [reflexivity|]. split.
    + unfold Tcl_GetUnicodeFromObj. cbn [numChars hasUnicode unicode].
      rewrite Hu. replace (numChars o + n =? -1) with false by lia. cbn [orb negb fst].
      apply firstn_all2. simpl numChars. lia.
    + unfold obj_string, TclGetStringFromObj, UpdateStringOfString, obj_bytes.
      cbn [bytes numChars unicode fst].
      rewrite firstn_all2 by lia. apply utf_encode_app.
Qed.

Lemma UniCharToUtf_multi (c : Z) :
  128 <= c <= 65535 ->
  exists lead rest, Tcl_UniCharToUtf c = lead :: rest /\ 192 <= lead /\ rest <> [].
Proof.
  intros Hc. destruct (UniCharToUtf_decode c [] ltac:(lia)) as [_ Hs].
  assert (Hlen : (2 <= length (Tcl_UniCharToUtf c))%nat).
  { unfold Tcl_UniCharToUtf.
    replace ((0 <? c) && (c <? 128)) with false
      by (symmetry; apply andb_false_iff; right; apply Z.ltb_ge; lia).
    destruct (_ && _); [|destruct (_ && _)]; cbn; lia. }
  destruct (Tcl_UniCharToUtf c) as [|x [|y [|z [|w e]]]]; cbn in Hlen; try lia;
    cbn [enc_shape] in Hs; try discriminate;
    rewrite ?andb_true_iff, ?Z.leb_le, ?Z.ltb_lt in Hs;
    eexists _, _; (split; [reflexivity|]); split; (lia || discriminate).
Qed.

(** After appending a code unit of 128 or more onto a value whose bytes and known count are all single-byte characters, the count is kept as a count of bytes, so [Tcl_GetUniChar] at the new index reads the lead byte of its encoding as a sign-extended char, not the code unit appended. *)
Theorem AppendUnicodeToObj_then_GetUniChar_reads_lead_byte (alloc_ok : Z -> bool)
    (o o' : StringObj) (b : list Z) (c : Z) :
  bytes o = Some b -> hasUnicode o = false -> numChars o = Z.of_nat (length b) ->
  128 <= c <= 65535 ->
  Tcl_AppendUnicodeToObj alloc_ok o [c] 1 = Ok o' ->
  fst (Tcl_GetCharLength o') = Z.of_nat (length b) + 1
  /\ fst (Tcl_GetUniChar o' (Z.of_nat (length b)))
     = uchar_of_char (hd 0 (Tcl_UniCharToUtf c))
  /\ (c < 65472 -> fst (Tcl_GetUniChar o' (Z.of_nat (length b))) <> c).
Proof.
  intros Hb Hu Hn Hc H.
  destruct (AppendUnicodeToObj_utf_path alloc_ok o o' [c] b 1 ltac:(cbn; lia) H Hu Hb)
    as [Hb' [Hu' Hn']]. rewrite Hn in Hn'.
  replace (Z.of_nat (length b) =? -1) with false in Hn' by lia.
  assert (Hk : Tcl_GetCharLength o' = (Z.of_nat (length b) + 1, o'))
    by (rewrite GetCharLength_known; rewrite Hn'; [reflexivity|lia]).
  assert (Hg : fst (Tcl_GetUniChar o' (Z.of_nat (length b)))
               = uchar_of_char (hd 0 (Tcl_UniCharToUtf c))).
  { unfold Tcl_GetUniChar. rewrite Hn'. replace (Z.of_nat (length b) + 1 =? -1) with false by lia.
    rewrite Hu'. cbn [fst]. unfold obj_bytes, byte_at. rewrite Hb', Nat2Z.id.
    change (firstn (Z.to_nat 1) [c]) with [c]. change (utf_encode [c]) with (Tcl_UniCharToUtf c ++ []). rewrite app_nil_r.
    rewrite app_nth2, Nat.sub_diag by lia.
    destruct (Tcl_UniCharToUtf c); reflexivity. }
  rewrite Hk. split; [reflexivity|]. split; [exact Hg|].
  intros Hlt. rewrite Hg. destruct (UniCharToUtf_multi c Hc) as [lead [rest [He [Hl _]]]].
  rewrite He. cbn [hd]. unfold uchar_of_char. replace (lead <? 128) with false by lia. lia.
Qed.

(** [Tcl_AppendToObj] onto a value with a unicode rep. *)
Lemma AppendToObj_unicode_units (alloc_ok : Z -> bool) (o o' : StringObj) (src : list Z) :
  hasUnicode o = true -> 0 <= numChars o <= Z.of_nat (length (unicode o)) ->
  0 < Z.of_nat (length src) <= INT_MAX ->
  Tcl_AppendToObj alloc_ok o src (Z.of_nat (length src)) = Ok o' ->
  bytes o' = None
  /\ numChars o' = numChars o + Tcl_NumUtfChars src (Z.of_nat (length src))
  /\ fst (fst (Tcl_GetUnicodeFromObj o'))
     = firstn (Z.to_nat (numChars o)) (unicode o) ++ utf_chars src.
Proof.
  intros Hu Hc Hl H. unfold Tcl_AppendToObj, Tcl_AppendLimitedToObj in H.
  destruct (shared o); [discriminate|].
  replace (Z.of_nat (length src) <? 0) with false in H by lia. cbv zeta in H.
  replace (Z.of_nat (length src) =? 0) with false in H by lia.
  replace (Z.of_nat (length src) <=? INT_MAX) with true in H by lia.
  unfold append_utf in H. rewrite Hu in H. cbn [bind] in H. injection H as <-.
  unfold AppendUtfToUnicodeRep. replace (Z.of_nat (length src) =? 0) with false by lia.
  pose proof (count_single_unit src) as [Hn [_ Hne]]. cbv zeta in Hn, Hne.
  assert (H1 : 1 <= Tcl_NumUtfChars src (Z.of_nat (length src)))
    by (apply Hne; destruct src; [cbn in Hl; lia|discriminate]).
  set (k := Tcl_NumUtfChars src (Z.of_nat (length src))) in *.
  unfold set_allocated, invalidate_string_rep, set_bytes, ExtendUnicodeRepWithString.
  rewrite Hu. cbn [Z.eqb Pos.eqb]. fold k.
  unfold set_chars, set_unicode. cbn [bytes numChars].
  split; [reflexivity|]. split; [reflexivity|].
  unfold Tcl_GetUnicodeFromObj. cbn [numChars hasUnicode unicode].
  replace (numChars o + k =? -1) with false by lia.
  replace (numChars o + k >? 0) with true by lia. cbn [orb negb fst numChars unicode].
  unfold utf_chars. fold k. apply firstn_all2.
  rewrite length_app, length_firstn, utf_decode_length. lia.
Qed.

(** Appending bytes onto a value that has a unicode rep converts them to code units and extends that rep: the byte rep is dropped and the count grows by the number of characters appended. *)
Theorem AppendToObj_onto_unicode_rep (alloc_ok : Z -> bool) (o o' : StringObj) (src : list Z) :
  hasUnicode o = true -> 0 <= numChars o <= Z.of_nat (length (unicode o)) ->
  0 < Z.of_nat (length src) <= INT_MAX ->
  Tcl_AppendToObj alloc_ok o src (Z.of_nat (length src)) = Ok o' ->
  bytes o' = None
  /\ numChars o' = numChars o + Tcl_NumUtfChars src (Z.of_nat (length src))
  /\ fst (fst (Tcl_GetUnicodeFromObj o'))
     = firstn (Z.to_nat (numChars o)) (unicode o) ++ utf_chars src.
Proof. exact (AppendToObj_unicode_units alloc_ok o o' src). Qed.

(** [Tcl_SetObjLength] to a length not past the end keeps the prefix of that length: of the bytes (the character count is reset to unknown) when the value has a byte rep, of the code units when it has only a unicode rep. *)
Theorem SetObjLength_keeps_prefix (alloc_ok : Z -> bool) (o o' : StringObj) (k : Z) :
  0 <= k ->
  Tcl_SetObjLength alloc_ok o k = Ok o' ->
  (forall b, bytes o = Some b -> k <= Z.of_nat (length b) ->
     obj_string o' = firstn (Z.to_nat k) b /\ numChars o' = -1 /\ hasUnicode o' = false)
  /\ (bytes o = None -> hasUnicode o = true -> k <= Z.of_nat (length (unicode o)) ->
      bytes o' = None /\ numChars o' = k
      /\ fst (fst (Tcl_GetUnicodeFromObj o')) = firstn (Z.to_nat k) (unicode o)).
Proof.
  intros Hk H. unfold Tcl_SetObjLength in H.
  replace (k <? 0) with false in H by lia. destruct (shared o); [discriminate|].
  split.
  - intros b Hb Hkb. unfold has_bytes, obj_bytes in H. rewrite Hb in H. cbn [orb andb] in H.
    assert (Hr : resize 0 b k = firstn (Z.to_nat k) b).
    { unfold resize. rewrite firstn_app. replace (Z.to_nat k - length b)%nat with 0%nat by lia.
      rewrite app_nil_r. reflexivity. }
    destruct (k >? allocated o).
    + unfold ckrealloc in H. destruct (alloc_ok (k + 1)); [|discriminate].
      cbn [andb bind] in H. unfold set_length_tail in H. cbn [bytes] in H.
      injection H as <-. unfold obj_string, TclGetStringFromObj. cbn. rewrite Hr. auto.
    + cbn [andb bind] in H. unfold set_length_tail in H. rewrite Hb in H.
      injection H as <-. unfold obj_string, TclGetStringFromObj. cbn. rewrite Hr. auto.
  - intros Hb Hu Hku. unfold has_bytes in H. rewrite Hb, Hu in H.
    cbn [orb negb andb bind] in H. rewrite Bool.andb_false_r in H. cbn [bind] in H.
    unfold set_length_tail in H. rewrite Hb in H.
    match type of H with bind ?x _ = _ => destruct x as [ua|] end; [|discriminate].
    cbn [bind] in H. injection H as <-.
    assert (Hr : resize 0 (unicode o) k = firstn (Z.to_nat k) (unicode o)).
    { unfold resize. rewrite firstn_app.
      replace (Z.to_nat k - length (unicode o))%nat with 0%nat by lia.
      rewrite app_nil_r. reflexivity. }
    cbn [bytes numChars]. split; [reflexivity|]. split; [reflexivity|].
    unfold Tcl_GetUnicodeFromObj. cbn [numChars hasUnicode unicode].
    replace (k =? -1) with false by lia. rewrite Hr.
    destruct (k >? 0) eqn:Ek; cbn [orb negb fst numChars unicode].
    + rewrite firstn_firstn, Nat.min_id. reflexivity.
    + assert (k = 0) by lia. subst k. reflexivity.
Qed.

Lemma single_unit_loop_one (f : nat) (s : list Z) :
  (length s <= f)%nat -> single_unit_loop f s (Z.of_nat (length s)) = true -> units_one s.
Proof.
  revert s. induction f as [|f IH]; intros s Hf H p Hp; [lia|].
  cbn [single_unit_loop] in H. replace (Z.of_nat (length s) >? 0) with true in H by lia.
  rewrite andb_true_iff, Z.eqb_eq in H. destruct H as [H1 H2].
  rewrite H1 in H2. destruct p as [|p]; [exact H1|].
  replace (Z.of_nat (length s) - 1) with (Z.of_nat (length (skipn 1 s))) in H2
    by (rewrite length_skipn; lia).
  change (Z.to_nat 1) with 1%nat in H2.
  pose proof (IH (skipn 1 s) ltac:(rewrite length_skipn; lia) H2 p
                 ltac:(rewrite length_skipn; lia)) as Hq.
  rewrite skipn_skipn in Hq. replace (p + 1)%nat with (S p) in Hq by lia. exact Hq.
Qed.

Lemma width_one_char (s : list Z) :
  fst (Tcl_UtfToUniChar s) = 1 -> snd (Tcl_UtfToUniChar s) = byte_at s 0.
Proof.
  unfold Tcl_UtfToUniChar. cbv zeta.
  repeat match goal with |- context [if ?c then _ else _] => destruct c end;
    cbn; congruence.
Qed.

Lemma units_one_decode (s : list Z) : units_one s -> utf_decode (length s) s = s.
Proof.
  induction s as [|x t IH]; intros H; [reflexivity|].
  cbn [length utf_decode]. rewrite TclUtfToUniChar_eq.
  pose proof (H 0%nat ltac:(cbn; lia)) as H0. cbn [skipn] in H0.
  pose proof (width_one_char _ H0) as Hc.
  destruct (Tcl_UtfToUniChar (x :: t)) as [w ch]. cbn in H0, Hc. subst w ch.
  cbn [Z.to_nat Pos.to_nat Pos.iter_op Nat.add skipn]. unfold byte_at. cbn [nth].
  f_equal. apply IH. intros p Hp. apply (H (S p)). cbn. lia.
Qed.

Lemma width_formula (s : list Z) :
  fst (Tcl_UtfToUniChar s)
  = if byte_at s 0 <? 192 then 1
    else if byte_at s 0 <? 224 then (if is_trail (byte_at s 1) then 2 else 1)
    else if byte_at s 0 <? 240
    then (if is_trail (byte_at s 1) && is_trail (byte_at s 2) then 3 else 1)
    else 1.
Proof.
  unfold Tcl_UtfToUniChar. cbv zeta.
  repeat match goal with |- context [if ?c then _ else _] => destruct c end; reflexivity.
Qed.

Lemma byte_at_firstn (m : nat) (t : list Z) (i : nat) :
  byte_at (firstn m t) i = if (i <? m)%nat then byte_at t i else 0.
Proof.
  unfold byte_at. revert t i. induction m as [|m IH]; intros t i.
  - destruct i; cbn; destruct t; reflexivity.
  - destruct t as [|x t], i as [|i]; cbn [firstn nth]; try reflexivity.
    + destruct (S i <? S m)%nat; destruct i; reflexivity.
    + rewrite IH. reflexivity.
Qed.

Lemma width_one_firstn (m : nat) (t : list Z) :
  (1 <= m)%nat -> fst (Tcl_UtfToUniChar t) = 1 -> fst (Tcl_UtfToUniChar (firstn m t)) = 1.
Proof.
  intros Hm H. rewrite width_formula in H |- *. rewrite !byte_at_firstn.
  replace (0 <? m)%nat with true by (symmetry; apply Nat.ltb_lt; lia).
  assert (Ht0 : is_trail 0 = false) by reflexivity.
  destruct (1 <? m)%nat, (2 <? m)%nat; rewrite ?Ht0, ?andb_false_r, ?andb_false_l;
    repeat match goal with
           | H : context [if ?c then _ else _] |- _ => destruct c
           | |- context [if ?c then _ else _] => destruct c
           end; congruence.
Qed.

Lemma units_one_slice (b : list Z) (first k : nat) :
  units_one b -> (first + k <= length b)%nat -> units_one (firstn k (skipn first b)).
Proof.
  intros H Hk p Hp. rewrite length_firstn, length_skipn in Hp.
  rewrite skipn_firstn_comm, skipn_skipn.
  apply width_one_firstn; [lia|]. apply H. lia.
Qed.

Lemma single_unit_chars (b : list Z) : all_single_unit b = true -> utf_chars b = b.
Proof.
  intros Hs. destruct (count_single_unit b) as [_ [Heq _]]. cbv zeta in Heq.
  apply Heq in Hs as Hn. unfold utf_chars. rewrite Hn, Nat2Z.id.
  apply units_one_decode. apply (single_unit_loop_one (length b)); [lia|exact Hs].
Qed.

(** For indices within the character count, [Tcl_GetRange] of a fresh string holds the characters from first to last of the string, and its character count is last - first + 1. *)
Theorem GetRange_substring (b : list Z) (first last : Z) :
  0 <= first <= last + 1 -> last < Tcl_NumUtfChars b (Z.of_nat (length b)) ->
  let r := Tcl_GetRange (fresh_string b) first last in
  fst (fst (Tcl_GetUnicodeFromObj r))
  = firstn (Z.to_nat (last - first + 1)) (skipn (Z.to_nat first) (utf_chars b))
  /\ fst (Tcl_GetCharLength r) = last - first + 1.
Proof.
  intros Hf Hl. cbv zeta.
  destruct (count_single_unit b) as [Hn [Hs Hne]]. cbv zeta in Hn, Hs, Hne.
  set (k := last - first + 1).
  pose proof (GetCharLength_fresh b false (Z.of_nat (length b)) 0 []) as Hg. cbv zeta in Hg.
  change (mkObj false (Some b) (Z.of_nat (length b)) (-1) false 0 []) with (fresh_string b) in Hg.
  unfold Tcl_GetRange. fold k. cbv zeta.
  replace (numChars (fresh_string b) =? -1) with true by reflexivity. rewrite Hg.
  assert (Hch : utf_chars b = utf_decode (Z.to_nat (Tcl_NumUtfChars b (Z.of_nat (length b)))) b)
    by reflexivity.
  remember (Tcl_NumUtfChars b (Z.of_nat (length b))) as n eqn:Hnd.
  destruct (n =? Z.of_nat (length b)) eqn:En; cbn [snd].
  - apply Z.eqb_eq in En. assert (Hsu : all_single_unit b = true) by (apply Hs; exact En).
    change (bytes (set_chars (fresh_string b) n false)) with (Some b).
    change (numChars (set_chars (fresh_string b) n false)) with n. cbv beta iota.
    rewrite En, Z.eqb_refl. cbv beta iota.
    set (s' := firstn (Z.to_nat k) (skipn (Z.to_nat first) b)).
    assert (Hlen : length s' = Z.to_nat k)
      by (unfold s'; rewrite length_firstn, length_skipn; lia).
    assert (Hone : units_one s').
    { apply units_one_slice; [|lia].
      apply (single_unit_loop_one (length b)); [lia|exact Hsu]. }
    destruct (FillUnicodeRep_known (set_chars (fresh_string s') k false) eq_refl
                ltac:(cbn [numChars set_chars]; lia)) as [F1 [F2 _]].
    cbn [numChars set_chars] in F1, F2. change (obj_bytes _) with s' in F2.
    split.
    + unfold Tcl_GetUnicodeFromObj. cbn [numChars hasUnicode set_chars].
      replace (k =? -1) with false by lia. cbn [orb negb].
      rewrite F1, F2, single_unit_chars by exact Hsu. fold s'.
      rewrite <- Hlen, units_one_decode by exact Hone. apply firstn_all.
    + rewrite GetCharLength_known by (cbn; lia). reflexivity.
  - set (o1 := FillUnicodeRep _).
    assert (Hsu : all_single_unit b = false)
      by (apply not_true_is_false; intros E; apply Hs in E; apply Z.eqb_neq in En; lia).
    destruct (FillUnicodeRep_known (set_chars (fresh_string b) n false) eq_refl ltac:(cbn [numChars set_chars]; lia))
      as [F1 [F2 [F3 _]]].
    fold o1 in F1, F2, F3. cbn [numChars set_chars bytes] in F1, F2, F3.
    change (obj_bytes _) with b in F2.
    rewrite F3, F1. change (bytes (fresh_string b)) with (Some b). cbv beta iota.
    rewrite En. cbv beta iota. rewrite F2, <- Hch.
    set (u := skipn (Z.to_nat first) (utf_chars b)).
    split.
    + unfold Tcl_GetUnicodeFromObj, Tcl_NewUnicodeObj. cbn [numChars hasUnicode unicode].
      replace (k =? -1) with false by lia.
      destruct (k >? 0) eqn:Ek; cbn [orb negb fst numChars unicode].
      * rewrite firstn_firstn, Nat.min_id. reflexivity.
      * assert (k = 0) by lia. rewrite H. reflexivity.
    + rewrite GetCharLength_known by (cbn; lia). reflexivity.
Qed.

(** [Tcl_GetUniChar] of a fresh string at an index below its character count reads the character at that index: the byte as a sign-extended char when every character is a single byte, the decoded character otherwise. *)
Theorem GetUniChar_fresh (b : list Z) (i : Z) :
  0 <= i < Tcl_NumUtfChars b (Z.of_nat (length b)) ->
  fst (Tcl_GetUniChar (fresh_string b) i)
  = if all_single_unit b then uchar_of_char (nth (Z.to_nat i) (utf_chars b) 0)
    else nth (Z.to_nat i) (utf_chars b) 0.
Proof.
  intros _.
  destruct (count_single_unit b) as [Hn [Hs Hne]]. cbv zeta in Hn, Hs, Hne.
  pose proof (GetCharLength_fresh b false (Z.of_nat (length b)) 0 []) as Hg. cbv zeta in Hg.
  change (mkObj false (Some b) (Z.of_nat (length b)) (-1) false 0 []) with (fresh_string b) in Hg.
  unfold Tcl_GetUniChar. cbv zeta.
  replace (numChars (fresh_string b) =? -1) with true by reflexivity. rewrite Hg.
  assert (Hch : utf_chars b = utf_decode (Z.to_nat (Tcl_NumUtfChars b (Z.of_nat (length b)))) b)
    by reflexivity.
  remember (Tcl_NumUtfChars b (Z.of_nat (length b))) as n eqn:Hnd.
  destruct (n =? Z.of_nat (length b)) eqn:En; cbn [snd].
  - apply Z.eqb_eq in En. assert (Hsu : all_single_unit b = true) by (apply Hs; exact En).
    rewrite Hsu, single_unit_chars by exact Hsu. reflexivity.
  - assert (Hsu : all_single_unit b = false)
      by (apply not_true_is_false; intros E; apply Hs in E; apply Z.eqb_neq in En; lia).
    assert (Hb0 : b <> []) by (intros ->; discriminate).
    specialize (Hne Hb0).
    destruct (FillUnicodeRep_known (set_chars (fresh_string b) n false) eq_refl ltac:(cbn [numChars set_chars]; lia))
      as [F1 [F2 [F3 [F4 _]]]].
    cbn [numChars set_chars bytes] in F1, F2, F3, F4.
    change (obj_bytes _) with b in F2.
    rewrite F4. replace (n >? 0) with true by lia. rewrite Hsu, F2, Hch. reflexivity.
Qed.

Lemma width_pos (s : list Z) : 1 <= fst (Tcl_UtfToUniChar s) <= 3.
Proof.
  rewrite width_formula.
  repeat match goal with |- context [if ?c then _ else _] => destruct c end; lia.
Qed.

Lemma NumUtfChars_loop_fuel (f1 f2 : nat) (s : list Z) (len : Z) :
  (Z.to_nat len <= f1)%nat -> (Z.to_nat len <= f2)%nat ->
  NumUtfChars_loop f1 s len = NumUtfChars_loop f2 s len.
Proof.
  revert f2 s len. induction f1 as [|f1 IH]; intros f2 s len H1 H2.
  - destruct f2; [reflexivity|]. cbn [NumUtfChars_loop].
    replace (len >? 0) with false by lia. reflexivity.
  - destruct (Z_le_gt_dec len 0).
    + destruct f2; cbn [NumUtfChars_loop]; replace (len >? 0) with false by lia; reflexivity.
    + destruct f2 as [|f2]; [lia|].
      rewrite !NumUtfChars_loop_step by lia. pose proof (width_pos s).
      f_equal. apply IH; lia.
Qed.

Lemma utf_chars_cons (s : list Z) :
  s <> [] ->
  utf_chars s = snd (Tcl_UtfToUniChar s)
                :: utf_chars (skipn (Z.to_nat (fst (Tcl_UtfToUniChar s))) s).
Proof.
  intros Hs. pose proof (UtfToUniChar_width s Hs) as Hw.
  unfold utf_chars, Tcl_NumUtfChars. rewrite Nat2Z.id.
  assert (Hl : (1 <= length s)%nat) by (destruct s; [congruence|cbn; lia]).
  replace (length s) with (S (length s - 1)) at 1 by lia.
  rewrite NumUtfChars_loop_step by lia.
  destruct (Tcl_UtfToUniChar s) as [w ch] eqn:Ec. cbn [fst snd] in *.
  rewrite length_skipn.
  replace (Z.of_nat (length s) - w) with (Z.of_nat (length s - Z.to_nat w)) by lia.
  rewrite (NumUtfChars_loop_fuel (length s - 1) (length s - Z.to_nat w)) by lia.
  pose proof (NumUtfChars_loop_nonneg (length s - Z.to_nat w) (skipn (Z.to_nat w) s)
                (Z.of_nat (length s - Z.to_nat w))).
  replace (Z.to_nat (1 + _)) with (S (Z.to_nat (NumUtfChars_loop (length s - Z.to_nat w)
             (skipn (Z.to_nat w) s) (Z.of_nat (length s - Z.to_nat w))))) by lia.
  cbn [utf_decode]. rewrite TclUtfToUniChar_eq, Ec, Nat2Z.id. reflexivity.
Qed.

Lemma format_loop_verbatim (alloc_ok : Z -> bool) (objv : list Arg) (fuel : nat) (s span : list Z) (nb oi : Z)
    (gx gs : bool) (d : StringObj) :
  ~ In 0 s -> ~ In 37 (utf_chars s) -> (length s < fuel)%nat ->
  format_loop alloc_ok fuel objv (mkFmt s span nb oi gx gs d)
  = Ok (Stop (mkFmt [] span (nb + Z.of_nat (length s)) oi gx gs d)).
Proof.
  revert s nb. induction fuel as [|f IH]; intros s nb H0 H37 Hf; [lia|].
  cbn [format_loop]. destruct s as [|x t] eqn:Es.
  - unfold format_round. cbn. rewrite Z.add_0_r. reflexivity.
  - rewrite <- Es in *. assert (Hne : s <> []) by (subst; discriminate).
    pose proof (utf_chars_cons s Hne) as Hc.
    pose proof (UtfToUniChar_width s Hne) as Hw.
    unfold format_round.
    replace (byte_at s 0 =? 0) with false
      by (subst s; unfold byte_at; cbn [nth]; symmetry; apply Z.eqb_neq;
          intros ->; apply H0; left; reflexivity).
    destruct (Tcl_UtfToUniChar s) as [w ch] eqn:Eu. cbn [fst snd] in Hc, Hw.
    rewrite Hc in H37.
    replace (negb (ch =? 37)) with true
      by (symmetry; apply negb_true_iff, Z.eqb_neq; intros ->; apply H37; left; reflexivity).
    cbn [bind].
    rewrite IH.
    + f_equal. f_equal. f_equal. rewrite length_skipn. lia.
    + intros Hin. apply H0. rewrite <- (firstn_skipn (Z.to_nat w) s). apply in_or_app; right; exact Hin.
    + intros Hin. apply H37. right. exact Hin.
    + rewrite length_skipn. lia.
Qed.

(** A template with no NUL byte and no percent character is copied verbatim, whatever the arguments: [Tcl_AppendFormatToObj] appends the whole template to any unshared destination with one [Tcl_AppendToObj] and returns TCL_OK; a destination held as bytes gets the template's bytes, one held as code units gets the template's characters; and [Tcl_Format] returns a value holding the template. *)
Theorem format_verbatim (alloc_ok : Z -> bool) (d : StringObj) (t : list Z) (objv : list Arg) :
  shared d = false -> ~ In 0 t -> ~ In 37 (utf_chars t) -> Z.of_nat (length t) <= INT_MAX ->
  Tcl_AppendFormatToObj alloc_ok d t objv
  = (let d' := snd (TclGetStringFromObj d) in
     if Z.of_nat (length t) =? 0 then Ok (TCL_OK, d')
     else r <- Tcl_AppendToObj alloc_ok d' t (Z.of_nat (length t)) ;; Ok (TCL_OK, r))
  /\ (forall b r, bytes d = Some b -> hasUnicode d = false ->
        Tcl_AppendFormatToObj alloc_ok d t objv = Ok r ->
        fst r = TCL_OK /\ bytes (snd r) = Some (b ++ t))
  /\ (forall r, hasUnicode d = true -> 0 <= numChars d <= Z.of_nat (length (unicode d)) ->
        Tcl_AppendFormatToObj alloc_ok d t objv = Ok r ->
        fst r = TCL_OK /\ obj_units (snd r) = obj_units d ++ utf_chars t)
  /\ (forall r, Tcl_Format alloc_ok t objv = Ok r ->
        exists o, r = Some o /\ obj_string o = t).
Proof.
  intros Hs H0 H37 Hl.
  assert (Heq : forall d, shared d = false ->
            Tcl_AppendFormatToObj alloc_ok d t objv
            = (let d' := snd (TclGetStringFromObj d) in
               if Z.of_nat (length t) =? 0 then Ok (TCL_OK, d')
               else r <- Tcl_AppendToObj alloc_ok d' t (Z.of_nat (length t)) ;; Ok (TCL_OK, r))).
  { clear Hs d. intros d Hs. unfold Tcl_AppendFormatToObj. rewrite Hs.
    destruct (TclGetStringFromObj d) as [orig d'] eqn:Eg. cbn [snd].
    rewrite format_loop_verbatim by (auto; lia).
    cbn [bind fs_numBytes fs_dest fs_span]. rewrite Z.add_0_l. cbv zeta.
    destruct (Z.of_nat (length t) =? 0); [reflexivity|].
    destruct (Tcl_AppendToObj alloc_ok d' t (Z.of_nat (length t))); reflexivity. }
  assert (Hbytes : forall d b r, shared d = false -> bytes d = Some b -> hasUnicode d = false ->
            Tcl_AppendFormatToObj alloc_ok d t objv = Ok r ->
            fst r = TCL_OK /\ bytes (snd r) = Some (b ++ t)).
  { clear Hs d. intros d b r Hs Hb Hu H. rewrite (Heq d Hs) in H. cbv zeta in H.
    unfold TclGetStringFromObj in H. rewrite Hb in H. cbn [snd] in H.
    destruct (Z.of_nat (length t) =? 0) eqn:E.
    - injection H as <-. cbn [fst snd]. split; [reflexivity|].
      apply Z.eqb_eq in E. destruct t; [|cbn [length] in E; lia].
      rewrite app_nil_r. exact Hb.
    - destruct (Tcl_AppendToObj alloc_ok d t (Z.of_nat (length t))) as [o'|] eqn:Ea;
        [|discriminate].
      injection H as <-. cbn [fst snd]. split; [reflexivity|].
      destruct (AppendToObj_bytes alloc_ok d o' b t (Z.of_nat (length t)) Hb Hu ltac:(lia) Ea)
        as [Hb' _].
      rewrite Hb', Nat2Z.id, firstn_all. reflexivity. }
  split; [exact (Heq d Hs)|]. split; [|split].
  - intros b r Hb Hu H. exact (Hbytes d b r Hs Hb Hu H).
  - intros r Hu Hc H. rewrite (Heq d Hs) in H. cbv zeta in H.
    set (d' := snd (TclGetStringFromObj d)) in H.
    assert (Hf : hasUnicode d' = hasUnicode d /\ numChars d' = numChars d
                 /\ unicode d' = unicode d /\ shared d' = shared d)
      by (subst d'; unfold TclGetStringFromObj; destruct (bytes d); repeat split).
    destruct Hf as [F1 [F2 [F3 F4]]].
    rewrite (obj_units_known d Hu) by lia.
    destruct (Z.of_nat (length t) =? 0) eqn:E.
    + injection H as <-. cbn [fst snd]. split; [reflexivity|].
      apply Z.eqb_eq in E. destruct t; [|cbn [length] in E; lia].
      rewrite (obj_units_known d') by (rewrite ?F1, ?F2; first [exact Hu | lia]).
      change (utf_chars []) with (@nil Z). rewrite F2, F3, app_nil_r. reflexivity.
    + destruct (Tcl_AppendToObj alloc_ok d' t (Z.of_nat (length t))) as [o'|] eqn:Ea;
        [|discriminate].
      injection H as <-. cbn [fst snd]. split; [reflexivity|].
      destruct (AppendToObj_unicode_units alloc_ok d' o' t ltac:(rewrite F1; exact Hu)
                  ltac:(rewrite F2, F3; lia) ltac:(lia) Ea) as [_ [_ Hg]].
      unfold obj_units. rewrite Hg, F2, F3. reflexivity.
  - intros r H. unfold Tcl_Format in H.
    destruct (Tcl_AppendFormatToObj alloc_ok Tcl_NewObj t objv) as [[c o]|] eqn:Ef;
      [|discriminate].
    destruct (Hbytes Tcl_NewObj [] (c, o) eq_refl eq_refl eq_refl Ef) as [Hc Ho].
    cbn [fst snd] in Hc, Ho. subst c. cbn [bind] in H. inversion H; subst; clear H.
    exists o. split; [reflexivity|]. unfold obj_string, TclGetStringFromObj. rewrite Ho. reflexivity.
Qed.


Lemma AttemptSetObjLength_matches_SetObjLength_witness :
  match Tcl_AttemptSetObjLength (fun _ => true) (fresh_string [97; 98]) 5 with
  | Ok (true, o') => Tcl_SetObjLength (fun _ => true) (fresh_string [97; 98]) 5 = Ok o'
  | Ok (false, o') => o' = fresh_string [97; 98]
                      /\ Tcl_SetObjLength (fun _ => true) (fresh_string [97; 98]) 5 = Panic
  | Panic => False
  end.
Proof.
  apply (AttemptSetObjLength_matches_SetObjLength (fun _ => true) (fresh_string [97; 98]) 5);
    [reflexivity | lia].
Defined.

Lemma unicode_string_round_trip_witness :
  exists o1 o2,
    Tcl_SetUnicodeObj (fun _ => true) Tcl_NewObj [97; 233; 8364] 3 = Ok o1
    /\ Tcl_NewStringObj (fun _ => true) (obj_string o1) (-1) = Ok o2
    /\ obj_string o1 = utf_encode [97; 233; 8364] /\ obj_string o2 = utf_encode [97; 233; 8364]
    /\ fst (Tcl_GetUnicodeFromObj o2) = ([97; 233; 8364], 3).
Proof.
  set (o1 := match Tcl_SetUnicodeObj (fun _ => true) Tcl_NewObj [97; 233; 8364] 3 with
             | Ok o => o | Panic => Tcl_NewObj end).
  assert (H1 : Tcl_SetUnicodeObj (fun _ => true) Tcl_NewObj [97; 233; 8364] 3 = Ok o1)
    by (vm_compute; reflexivity).
  set (o2 := match Tcl_NewStringObj (fun _ => true) (obj_string o1) (-1) with
             | Ok o => o | Panic => Tcl_NewObj end).
  assert (H2 : Tcl_NewStringObj (fun _ => true) (obj_string o1) (-1) = Ok o2)
    by (vm_compute; reflexivity).
  exists o1, o2. split; [exact H1|]. split; [exact H2|].
  apply (unicode_string_round_trip (fun _ => true) Tcl_NewObj o1 o2 [97; 233; 8364]);
    [repeat constructor; lia | exact H1 | exact H2].
Defined.

Lemma AppendStringsToObj_appends_witness :
  exists o',
    Tcl_AppendStringsToObj (fun _ => true) (fresh_string [97]) [[98; 99]; [100; 0; 101]] = Ok o'
    /\ bytes o' = Some ([97] ++ concat (map (fun s => firstn (Z.to_nat (strlen s)) s)
                                           [[98; 99]; [100; 0; 101]])).
Proof.
  set (o' := match Tcl_AppendStringsToObj (fun _ => true) (fresh_string [97])
                     [[98; 99]; [100; 0; 101]] with Ok o => o | Panic => Tcl_NewObj end).
  assert (H : Tcl_AppendStringsToObj (fun _ => true) (fresh_string [97])
                [[98; 99]; [100; 0; 101]] = Ok o') by (vm_compute; reflexivity).
  exists o'. split; [exact H|].
  apply (AppendStringsToObj_appends (fun _ => true) (fresh_string [97]) o' [97]
           [[98; 99]; [100; 0; 101]]); [reflexivity | vm_compute; discriminate | exact H].
Defined.

Lemma AppendStringsToObj_stale_count_witness :
  exists o',
    Tcl_AppendStringsToObj (fun _ => true) (mkObj false (Some [97]) 2 1 false 0 []) [[98]]
    = Ok o'
    /\ objLength o' = 2 /\ fst (Tcl_GetCharLength o') = 1
    /\ hasUnicode o' = false /\ unicode o' = [].
Proof.
  set (o0 := mkObj false (Some [97]) 2 1 false 0 []).
  set (o' := match Tcl_AppendStringsToObj (fun _ => true) o0 [[98]] with
             | Ok o => o | Panic => Tcl_NewObj end).
  assert (H : Tcl_AppendStringsToObj (fun _ => true) o0 [[98]] = Ok o')
    by (vm_compute; reflexivity).
  exists o'. split; [exact H|].
  apply (AppendStringsToObj_stale_count (fun _ => true) o0 o' [97] [[98]]);
    [reflexivity | discriminate | vm_compute; split; discriminate | exact H].
Defined.

Lemma negative_length_reads_to_NUL_witness :
  let src := [97; 98; 0; 99] in
  let upto_NUL p := exists rest, src = p ++ rest /\ ~ In 0 p
                                 /\ (rest = [] \/ exists t, rest = 0 :: t) in
  (forall o', Tcl_NewStringObj (fun _ => true) src (-1) = Ok o' -> upto_NUL (obj_string o'))
  /\ (forall o o', Tcl_SetStringObj (fun _ => true) o src (-1) = Ok o'
                   -> upto_NUL (obj_string o'))
  /\ (forall o o', Tcl_SetUnicodeObj (fun _ => true) o src (-1) = Ok o' ->
        upto_NUL (fst (fst (Tcl_GetUnicodeFromObj o')))
        /\ numChars o' = Z.of_nat (length (fst (fst (Tcl_GetUnicodeFromObj o'))))).
Proof.
  apply (negative_length_reads_to_NUL (fun _ => true) [97; 98; 0; 99] (-1)). lia.
Defined.

Lemma AppendUnicodeToObj_appends_witness :
  exists o',
    Tcl_AppendUnicodeToObj (fun _ => true) (fresh_string [97]) [233; 98] 2 = Ok o'
    /\ (hasUnicode (fresh_string [97]) = false -> forall b, bytes (fresh_string [97]) = Some b ->
        bytes o' = Some (b ++ utf_encode (firstn (Z.to_nat 2) [233; 98]))
        /\ hasUnicode o' = false
        /\ numChars o' = (if numChars (fresh_string [97]) =? -1 then -1
                          else numChars (fresh_string [97]) + 2))
    /\ (hasUnicode (fresh_string [97]) = true ->
        0 <= numChars (fresh_string [97]) <= Z.of_nat (length (unicode (fresh_string [97]))) ->
        numChars (fresh_string [97]) + 2 <= INT_MAX ->
        bytes o' = None /\ numChars o' = numChars (fresh_string [97]) + 2
        /\ fst (fst (Tcl_GetUnicodeFromObj o'))
           = firstn (Z.to_nat (numChars (fresh_string [97]))) (unicode (fresh_string [97]))
             ++ firstn (Z.to_nat 2) [233; 98]
        /\ obj_string o'
           = utf_encode (firstn (Z.to_nat (numChars (fresh_string [97])))
                                (unicode (fresh_string [97])))
             ++ utf_encode (firstn (Z.to_nat 2) [233; 98])).
Proof.
  set (o' := match Tcl_AppendUnicodeToObj (fun _ => true) (fresh_string [97]) [233; 98] 2 with
             | Ok o => o | Panic => Tcl_NewObj end).
  assert (H : Tcl_AppendUnicodeToObj (fun _ => true) (fresh_string [97]) [233; 98] 2 = Ok o')
    by (vm_compute; reflexivity).
  exists o'. split; [exact H|].
  apply (AppendUnicodeToObj_appends (fun _ => true) (fresh_string [97]) o' [233; 98] 2);
    [cbn; lia | exact H].
Defined.

Lemma AppendUnicodeToObj_then_GetUniChar_reads_lead_byte_witness :
  exists o',
    Tcl_AppendUnicodeToObj (fun _ => true) (mkObj false (Some [97]) 1 1 false 0 []) [233] 1
    = Ok o'
    /\ fst (Tcl_GetCharLength o') = 2
    /\ fst (Tcl_GetUniChar o' 1) = 65475
    /\ fst (Tcl_GetUniChar o' 1) <> 233.
Proof.
  set (o0 := mkObj false (Some [97]) 1 1 false 0 []).
  set (o' := match Tcl_AppendUnicodeToObj (fun _ => true) o0 [233] 1 with
             | Ok o => o | Panic => Tcl_NewObj end).
  assert (H : Tcl_AppendUnicodeToObj (fun _ => true) o0 [233] 1 = Ok o')
    by (vm_compute; reflexivity).
  exists o'. split; [exact H|].
  destruct (AppendUnicodeToObj_then_GetUniChar_reads_lead_byte (fun _ => true) o0 o' [97] 233
              eq_refl eq_refl eq_refl ltac:(lia) H) as [Hk [Hg Hne]].
  change (Z.of_nat (length [97])) with 1 in Hk, Hg, Hne.
  split; [exact Hk|]. split; [rewrite Hg; vm_compute; reflexivity|]. apply Hne. lia.
Defined.

Lemma AppendToObj_onto_unicode_rep_witness :
  exists o',
    Tcl_AppendToObj (fun _ => true) (Tcl_NewUnicodeObj [233] 1) [98; 195; 169] 3 = Ok o'
    /\ bytes o' = None
    /\ numChars o' = 1 + Tcl_NumUtfChars [98; 195; 169] 3
    /\ fst (fst (Tcl_GetUnicodeFromObj o')) = [233] ++ utf_chars [98; 195; 169].
Proof.
  set (o' := match Tcl_AppendToObj (fun _ => true) (Tcl_NewUnicodeObj [233] 1)
                     [98; 195; 169] 3 with Ok o => o | Panic => Tcl_NewObj end).
  assert (H : Tcl_AppendToObj (fun _ => true) (Tcl_NewUnicodeObj [233] 1) [98; 195; 169] 3
              = Ok o') by (vm_compute; reflexivity).
  exists o'. split; [exact H|].
  apply (AppendToObj_onto_unicode_rep (fun _ => true) (Tcl_NewUnicodeObj [233] 1) o'
           [98; 195; 169]); [reflexivity | vm_compute; split; discriminate
    | unfold INT_MAX; cbn; lia | exact H].
Defined.

Lemma SetObjLength_keeps_prefix_witness :
  exists o',
    Tcl_SetObjLength (fun _ => true) (fresh_string [97; 98; 99]) 2 = Ok o'
    /\ (forall b, bytes (fresh_string [97; 98; 99]) = Some b -> 2 <= Z.of_nat (length b) ->
          obj_string o' = firstn (Z.to_nat 2) b /\ numChars o' = -1 /\ hasUnicode o' = false)
    /\ (bytes (fresh_string [97; 98; 99]) = None -> hasUnicode (fresh_string [97; 98; 99]) = true ->
        2 <= Z.of_nat (length (unicode (fresh_string [97; 98; 99]))) ->
        bytes o' = None /\ numChars o' = 2
        /\ fst (fst (Tcl_GetUnicodeFromObj o'))
           = firstn (Z.to_nat 2) (unicode (fresh_string [97; 98; 99]))).
Proof.
  set (o' := match Tcl_SetObjLength (fun _ => true) (fresh_string [97; 98; 99]) 2 with
             | Ok o => o | Panic => Tcl_NewObj end).
  assert (H : Tcl_SetObjLength (fun _ => true) (fresh_string [97; 98; 99]) 2 = Ok o')
    by (vm_compute; reflexivity).
  exists o'. split; [exact H|].
  apply (SetObjLength_keeps_prefix (fun _ => true) (fresh_string [97; 98; 99]) o' 2);
    [lia | exact H].
Defined.

Lemma GetRange_substring_witness :
  let r := Tcl_GetRange (fresh_string [97; 195; 169; 98]) 1 2 in
  fst (fst (Tcl_GetUnicodeFromObj r))
  = firstn (Z.to_nat (2 - 1 + 1)) (skipn (Z.to_nat 1) (utf_chars [97; 195; 169; 98]))
  /\ fst (Tcl_GetCharLength r) = 2 - 1 + 1.
Proof.
  apply (GetRange_substring [97; 195; 169; 98] 1 2); [lia | vm_compute; reflexivity].
Defined.

Lemma GetUniChar_fresh_witness :
  0 <= 1 < Tcl_NumUtfChars [97; 195; 169] 3
  /\ fst (Tcl_GetUniChar (fresh_string [97; 195; 169]) 1) = 233.
Proof.
  assert (H : 0 <= 1 < Tcl_NumUtfChars [97; 195; 169] 3) by (vm_compute; split; congruence).
  split; [exact H|].
  rewrite (GetUniChar_fresh [97; 195; 169] 1 H). vm_compute. reflexivity.
Defined.

Lemma format_verbatim_witness :
  Tcl_AppendFormatToObj (fun _ => true) (Tcl_NewUnicodeObj [233] 1) [97; 98] []
  = Ok (TCL_OK, mkObj false None 0 3 true 12 [233; 97; 98])
  /\ obj_units (mkObj false None 0 3 true 12 [233; 97; 98]) = [233; 97; 98]
  /\ (forall r, Tcl_Format (fun _ => true) [97; 195; 169] [] = Ok r ->
        exists o, r = Some o /\ obj_string o = [97; 195; 169]).
Proof.
  assert (E : Tcl_AppendFormatToObj (fun _ => true) (Tcl_NewUnicodeObj [233] 1) [97; 98] []
              = Ok (TCL_OK, mkObj false None 0 3 true 12 [233; 97; 98]))
    by (vm_compute; reflexivity).
  split; [exact E|]. split.
  - destruct (format_verbatim (fun _ => true) (Tcl_NewUnicodeObj [233] 1) [97; 98] []
                eq_refl ltac:(cbn; intuition congruence) ltac:(vm_compute; intuition congruence)
                ltac:(unfold INT_MAX; cbn; lia)) as [_ [_ [HU _]]].
    destruct (HU (TCL_OK, mkObj false None 0 3 true 12 [233; 97; 98]) eq_refl
                ltac:(vm_compute; split; congruence) E) as [_ Hu].
    cbn [snd] in Hu. rewrite Hu. vm_compute. reflexivity.
  - apply (format_verbatim (fun _ => true) Tcl_NewObj [97; 195; 169] []);
      [reflexivity | cbn; intuition congruence | vm_compute; intuition congruence
      | unfold INT_MAX; cbn; lia].
Defined.

